(** * Concurrent log analyzer: a shallow embedding of [main.go]

    Strings are Go strings (byte sequences), modelled as [string] whose
    characters are bytes.  Go's [int] and [int64] are 64-bit two's complement
    integers, modelled as [Z] with the wrap-around written out.  A Go map
    [map[string]int64] is an association list in insertion order; ranging
    over it visits its keys in an unspecified order, which is an explicit
    argument [ord] of the functions that range over a map.  A [panic] is the
    [Panic] outcome of the small error type [outcome]. *)

From Stdlib Require Import ZArith NArith Ascii String List Bool Lia.
From Stdlib Require Import Permutation Sorted.
Import ListNotations.
Open Scope string_scope.
Open Scope list_scope.
Open Scope Z_scope.

(* ------------------------------------------------------------------ *)
(** ** Go runtime conventions *)

Inductive outcome (A : Type) : Type :=
| Ok (a : A)
| Panic (msg : string).
Arguments Ok {A} a.
Arguments Panic {A} msg.

Definition obind {A B} (m : outcome A) (k : A -> outcome B) : outcome B :=
  match m with Ok a => k a | Panic s => Panic s end.
Notation "x <- m ;; k" := (obind m (fun x => k))
  (at level 61, m at next level, right associativity).

(** two's complement wrap-around of a 64-bit signed integer ([int], [int64]) *)
Definition wrap64 (x : Z) : Z := (x + 2 ^ 63) mod 2 ^ 64 - 2 ^ 63.

Definition add64 (x y : Z) : Z := wrap64 (x + y).

(** bytes of a Go string *)
Definition byte_of (c : ascii) : N := N_of_ascii c.

Fixpoint bytes (s : string) : list N :=
  match s with EmptyString => [] | String c r => byte_of c :: bytes r end.

Fixpoint str_of_bytes (l : list N) : string :=
  match l with [] => EmptyString | b :: r => String (ascii_of_N b) (str_of_bytes r) end.

(* ------------------------------------------------------------------ *)
(** ** [strings.Split] with a one-byte separator *)

Fixpoint split_char (sep : ascii) (s : string) : list string :=
  match s with
  | EmptyString => [EmptyString]
  | String c rest =>
      if Ascii.eqb c sep then EmptyString :: split_char sep rest
      else match split_char sep rest with
           | [] => [String c EmptyString]
           | h :: t => String c h :: t
           end
  end.

(* ------------------------------------------------------------------ *)
(** ** [strings.TrimSpace]

    [TrimSpace] removes leading and trailing runes for which
    [unicode.IsSpace] holds: the ASCII bytes [\t \n \v \f \r] and space,
    and U+0085, U+00A0, U+1680, U+2000..U+200A, U+2028, U+2029, U+202F,
    U+205F, U+3000.  On a byte string this is: strip any of the UTF-8
    encodings below from the front, then from the back (a valid UTF-8
    encoding of a space rune is decoded as that rune at either end, and
    nothing else decodes as a space rune). *)

Definition space_seqs : list string :=
  map str_of_bytes
    ([ [9]; [10]; [11]; [12]; [13]; [32];
       [194; 133]; [194; 160];
       [225; 154; 128] ] ++
     map (fun k => [226; 128; 128 + k]%N) [0; 1; 2; 3; 4; 5; 6; 7; 8; 9; 10]%N ++
     [ [226; 128; 168]; [226; 128; 169]; [226; 128; 175];
       [226; 129; 159]; [227; 128; 128] ])%N.

Fixpoint strip_prefix (q s : string) : option string :=
  match q, s with
  | EmptyString, _ => Some s
  | String a q', String b s' => if Ascii.eqb a b then strip_prefix q' s' else None
  | String _ _, EmptyString => None
  end.

Fixpoint srev (s : string) : string :=
  match s with EmptyString => EmptyString | String c r => (srev r ++ String c EmptyString)%string end.

Definition strip_suffix (q s : string) : option string :=
  option_map srev (strip_prefix (srev q) (srev s)).

Fixpoint first_some {A B} (f : A -> option B) (l : list A) : option B :=
  match l with
  | [] => None
  | a :: r => match f a with Some b => Some b | None => first_some f r end
  end.

Definition strip_space_prefix (s : string) : option string :=
  first_some (fun q => strip_prefix q s) space_seqs.

Definition strip_space_suffix (s : string) : option string :=
  first_some (fun q => strip_suffix q s) space_seqs.

Fixpoint trim_left_fuel (n : nat) (s : string) : string :=
  match n with
  | O => s
  | S n' => match strip_space_prefix s with
            | Some s' => trim_left_fuel n' s'
            | None => s
            end
  end.

Fixpoint trim_right_fuel (n : nat) (s : string) : string :=
  match n with
  | O => s
  | S n' => match strip_space_suffix s with
            | Some s' => trim_right_fuel n' s'
            | None => s
            end
  end.

Definition TrimSpace (s : string) : string :=
  let l := trim_left_fuel (String.length s) s in
  trim_right_fuel (String.length l) l.

(** a string begins (ends) with white space *)
Definition begins_with_space (s : string) : Prop :=
  exists q r, In q space_seqs /\ s = (q ++ r)%string.
Definition ends_with_space (s : string) : Prop :=
  exists q r, In q space_seqs /\ s = (r ++ q)%string.

(* ------------------------------------------------------------------ *)
(** ** [strconv.ParseUint] and [strconv.ParseInt] *)

(** the [Err] field of a [*strconv.NumError] *)
Inductive numErr := ErrSyntax | ErrRange | ErrBase | ErrBitSize.

Definition lower (c : N) : N := N.lor c 32.
Definition is_digit_b (c : N) : bool := (48 <=? c)%N && (c <=? 57)%N.

Definition maxUint64 : N := (2 ^ 64 - 1)%N.

(** the digit loop of [ParseUint]; returns the value, the error and whether
    an underscore was seen *)
Fixpoint pu_loop (base : N) (base0 : bool) (cutoff maxVal : N)
    (cs : list N) (n : N) (us : bool) : N * option numErr * bool :=
  match cs with
  | [] => (n, None, us)
  | c :: r =>
      if (c =? 95)%N && base0 then pu_loop base base0 cutoff maxVal r n true
      else
        let d := if is_digit_b c then Some (c - 48)%N
                 else if (97 <=? lower c)%N && (lower c <=? 122)%N
                      then Some (lower c - 97 + 10)%N
                      else None in
        match d with
        | None => (0%N, Some ErrSyntax, us)
        | Some d =>
            if (base <=? d)%N then (0%N, Some ErrSyntax, us)
            else if (cutoff <=? n)%N then (maxVal, Some ErrRange, us)
            else
              let nb := (n * base)%N in
              let n1 := ((nb + d) mod 2 ^ 64)%N in
              if (n1 <? nb)%N || (maxVal <? n1)%N then (maxVal, Some ErrRange, us)
              else pu_loop base base0 cutoff maxVal r n1 us
        end
  end.

Inductive saw_class := SawBegin | SawDigit | SawUnder | SawOther.

Fixpoint us_loop (hex : bool) (saw : saw_class) (cs : list N) : bool :=
  match cs with
  | [] => match saw with SawUnder => false | _ => true end
  | c :: r =>
      if is_digit_b c || (hex && (97 <=? lower c)%N && (lower c <=? 102)%N)
      then us_loop hex SawDigit r
      else if (c =? 95)%N then
        match saw with SawDigit => us_loop hex SawUnder r | _ => false end
      else match saw with SawUnder => false | _ => us_loop hex SawOther r end
  end.

(** [underscoreOK] *)
Definition underscoreOK (s : string) : bool :=
  let cs := bytes s in
  let cs := match cs with
            | c :: r => if (c =? 45)%N || (c =? 43)%N then r else cs
            | [] => cs
            end in
  match cs with
  | 48 :: c1 :: r =>
      if (lower c1 =? 98)%N || (lower c1 =? 111)%N || (lower c1 =? 120)%N
      then us_loop (lower c1 =? 120)%N SawDigit r
      else us_loop false SawBegin cs
  | _ => us_loop false SawBegin cs
  end%N.

Definition ParseUint (s : string) (base bitSize : N) : N * option numErr :=
  match bytes s with
  | [] => (0%N, Some ErrSyntax)
  | (c0 :: _) as cs =>
      let base0 := (base =? 0)%N in
      let cfg : option (N * list N) :=
        if base0 then
          match cs with
          | 48 :: c1 :: (_ :: _) as r =>
              if (lower c1 =? 98)%N then Some (2%N, r)
              else if (lower c1 =? 111)%N then Some (8%N, r)
              else if (lower c1 =? 120)%N then Some (16%N, r)
              else Some (8%N, tl cs)
          | 48 :: r => Some (8%N, r)
          | _ => Some (10%N, cs)
          end%N
        else if (2 <=? base)%N && (base <=? 36)%N then Some (base, cs) else None in
      match cfg with
      | None => (0%N, Some ErrBase)
      | Some (b, digits) =>
          let bs := if (bitSize =? 0)%N then 64%N else bitSize in
          if (64 <? bs)%N then (0%N, Some ErrBitSize) else
          let cutoff := (maxUint64 / b + 1)%N in
          let maxVal := (2 ^ bs - 1)%N in
          match pu_loop b base0 cutoff maxVal digits 0 false with
          | (n, Some e, _) => (n, Some e)
          | (n, None, us) =>
              if us && negb (underscoreOK s) then (0%N, Some ErrSyntax) else (n, None)
          end
      end
  end.

Definition ParseInt (s : string) (base bitSize : N) : Z * option numErr :=
  match s with
  | EmptyString => (0, Some ErrSyntax)
  | String c r =>
      let '(neg, s') := if (byte_of c =? 43)%N then (false, r)
                        else if (byte_of c =? 45)%N then (true, r)
                        else (false, s) in
      let '(un, err) := ParseUint s' base bitSize in
      match err with
      | Some e => if match e with ErrRange => false | _ => true end then (0, Some e)
                  else
                    let bs := if (bitSize =? 0)%N then 64%N else bitSize in
                    let cutoff := Z.of_N (2 ^ (bs - 1))%N in
                    if negb neg && (cutoff <=? Z.of_N un) then (cutoff - 1, Some ErrRange)
                    else if neg && (cutoff <? Z.of_N un) then (- cutoff, Some ErrRange)
                    else let n := wrap64 (Z.of_N un) in
                         (if neg then wrap64 (- n) else n, None)
      | None =>
          let bs := if (bitSize =? 0)%N then 64%N else bitSize in
          let cutoff := Z.of_N (2 ^ (bs - 1))%N in
          if negb neg && (cutoff <=? Z.of_N un) then (cutoff - 1, Some ErrRange)
          else if neg && (cutoff <? Z.of_N un) then (- cutoff, Some ErrRange)
          else let n := wrap64 (Z.of_N un) in
               (if neg then wrap64 (- n) else n, None)
      end
  end.


(* ------------------------------------------------------------------ *)
(** ** Records of [main.go] *)

Record LogMessage := mkLogMessage {
  timestamp : string;
  severity : string;
  module : string;
  function : string;
  lineNumber : Z;      (* int64 *)
  message : string
}.

Definition zeroLogMessage : LogMessage := mkLogMessage "" "" "" "" 0 "".

Record LogSeverityFrequency := mkLogSeverityFrequency {
  debug : Z; info : Z; warning : Z; error : Z   (* int64 *)
}.

(** [time.Time] values are represented by their instant: nanoseconds since
    the zero time [0001-01-01 00:00:00 UTC]; every time in the program is a
    UTC time without monotonic reading, so equal instants are equal values. *)
Definition Time := Z.
Definition zeroTime : Time := 0.
Definition After (t u : Time) : bool := u <? t.
Definition Before (t u : Time) : bool := t <? u.

Record LogAnalysis := mkLogAnalysis {
  numEntries : Z;                       (* int *)
  logSeverityFrequency : LogSeverityFrequency;
  topFiveLogMessages : list string;
  topFiveLogMessageFrequencies : list Z;  (* []int64 *)
  startTime : Time;
  endTime : Time
}.

(** Go errors returned by [parseLogMessage]: [errors.New] or a
    [*strconv.NumError] *)
Inductive goerror := ErrorsNew (msg : string) | NumError (e : numErr).

(* ------------------------------------------------------------------ *)
(** ** [parseLogMessage] *)

Definition parseLogMessage (logRow : string) : LogMessage * option goerror :=
  let leftParts := split_char "|" logRow in
  if negb (List.length leftParts =? 3)%nat then
    (zeroLogMessage, Some (ErrorsNew "Empty Message"))
  else
  let ts := TrimSpace (nth 0 leftParts "") in
  let sev := TrimSpace (nth 1 leftParts "") in
  let m1 := mkLogMessage ts sev "" "" 0 "" in
  if String.eqb sev "" then (m1, Some (ErrorsNew "Malformed message")) else
  let rightParts := split_char ":" (nth 2 leftParts "") in
  if (List.length rightParts <? 3)%nat then (m1, Some (ErrorsNew "Malformed message")) else
  let md := TrimSpace (nth 0 rightParts "") in
  let fn := TrimSpace (nth 1 rightParts "") in
  let m2 := mkLogMessage ts sev md fn 0 "" in
  let messageRaw := split_char "-" (nth 2 rightParts "") in
  if (List.length messageRaw <? 2)%nat then (m2, Some (ErrorsNew "Malformed message")) else
  let lineNumRaw := nth 0 (split_char "-" (nth 2 rightParts "")) "" in
  let msg := nth 1 (split_char "-" (nth 2 rightParts "")) "" in
  let '(lineNum, err) := ParseInt (TrimSpace lineNumRaw) 0 16 in
  let m3 := mkLogMessage ts sev md fn lineNum (TrimSpace msg) in
  match err with
  | Some e => (m3, Some (NumError e))
  | None => (m3, None)
  end.

(* ------------------------------------------------------------------ *)
(** ** [parseLogFile]: the file content is [Some data], or [None] when
    [os.ReadFile] fails *)

Definition parseLogFile (file : option string) : list LogMessage :=
  match file with
  | None => []                                  (* prints the error, returns nil *)
  | Some data =>
      fold_left (fun acc logRow =>
                   match parseLogMessage logRow with
                   | (lm, None) => acc ++ [lm]
                   | (_, Some _) => acc
                   end)
                (split_char "010" data) []
  end.

Definition getNumEntries (logMessages : list LogMessage) : Z :=
  Z.of_nat (List.length logMessages).

Definition zeroSeverity : LogSeverityFrequency := mkLogSeverityFrequency 0 0 0 0.

Definition tally (f : LogSeverityFrequency) (lm : LogMessage) : LogSeverityFrequency :=
  if String.eqb (severity lm) "DEBUG" then
    mkLogSeverityFrequency (add64 (debug f) 1) (info f) (warning f) (error f)
  else if String.eqb (severity lm) "INFO" then
    mkLogSeverityFrequency (debug f) (add64 (info f) 1) (warning f) (error f)
  else if String.eqb (severity lm) "WARNING" then
    mkLogSeverityFrequency (debug f) (info f) (add64 (warning f) 1) (error f)
  else if String.eqb (severity lm) "ERROR" then
    mkLogSeverityFrequency (debug f) (info f) (warning f) (add64 (error f) 1)
  else f.

Definition getLogSeverityFrequency (logMessages : list LogMessage) : LogSeverityFrequency :=
  fold_left tally logMessages zeroSeverity.

(* ------------------------------------------------------------------ *)
(** ** Go maps [map[string]int64] and [sort.SliceStable] *)

Definition gomap := list (string * Z).

(** [m[k]], zero when absent *)
Fixpoint map_get (m : gomap) (k : string) : Z :=
  match m with
  | [] => 0
  | (k', v) :: r => if String.eqb k' k then v else map_get r k
  end.

(** [m[k] += v] *)
Fixpoint map_add (m : gomap) (k : string) (v : Z) : gomap :=
  match m with
  | [] => [(k, add64 0 v)]
  | (k', v') :: r => if String.eqb k' k then (k', add64 v' v) :: r
                     else (k', v') :: map_add r k v
  end.

Definition map_keys (m : gomap) : list string := map fst m.

(** [for k := range m] may visit the keys in any order: an iteration order
    of [m] is any permutation of its keys. *)
Definition iteration_order (m : gomap) (ord : list string) : Prop :=
  Permutation (map_keys m) ord.

(** [sort.SliceStable] with the comparison [less]: all stable sorts give the
    same result, written here as an insertion sort that keeps equivalent
    elements in their input order. *)
Fixpoint insert_stable {A} (less : A -> A -> bool) (x : A) (l : list A) : list A :=
  match l with
  | [] => [x]
  | h :: t => if less h x then h :: insert_stable less x t else x :: h :: t
  end.

Fixpoint sort_stable {A} (less : A -> A -> bool) (l : list A) : list A :=
  match l with
  | [] => []
  | x :: r => insert_stable less x (sort_stable less r)
  end.

(** [func(i, j int) bool { return ranked[messages[i]] > ranked[messages[j]] }] *)
Definition by_count (ranked : gomap) (a b : string) : bool :=
  map_get ranked b <? map_get ranked a.

(** [xs[i] = v] on an in-range index (out of range is not reached below) *)
Fixpoint set_nth {A} (i : nat) (v : A) (xs : list A) : list A :=
  match i, xs with
  | O, _ :: r => v :: r
  | S i', x :: r => x :: set_nth i' v r
  | _, [] => []
  end.

(* ------------------------------------------------------------------ *)
(** ** [getTopFiveLogMessages]; [ord] is the iteration order of the map *)

Definition count_messages (logMessages : list LogMessage) : gomap :=
  fold_left (fun m lm => map_add m (message lm) 1) logMessages [].

Definition getTopFiveLogMessages (ord : list string) (logMessages : list LogMessage)
    : list string * list Z :=
  let ranked := count_messages logMessages in
  let top0 := repeat "" 5 in
  let freq0 := repeat 0 5 in
  let messages := sort_stable (by_count ranked) ord in
  match messages with
  | [] => (top0, freq0)
  | _ :: _ =>
      let maxMessages := Nat.min 5 (List.length messages) in
      fold_left (fun '(tops, freqs) index =>
                   (set_nth index (nth index messages "") tops,
                    set_nth index (map_get ranked (nth index messages "")) freqs))
                (seq 0 maxMessages) (top0, freq0)
  end.

(* ------------------------------------------------------------------ *)
(** ** [time.Parse] with the layout ["2006-01-02 15:04:05.999"]

    [layout_chunks] is the sequence of (literal prefix, standard chunk)
    pairs that [nextStdChunk] cuts the constant [layout] into; [time_parse]
    runs the chunk loop of [time.parse] over it, followed by the
    day-of-month validation and [Date(...,UTC)]. *)

Inductive stdChunk :=
| StdNone | StdLongYear | StdZeroMonth | StdZeroDay | StdHour
| StdZeroMinute | StdZeroSecond | StdFracSecond9 (digits : nat).

Definition layout : string := "2006-01-02 15:04:05.999".

Definition layout_chunks : list (string * stdChunk) :=
  [("", StdLongYear); ("-", StdZeroMonth); ("-", StdZeroDay); (" ", StdHour);
   (":", StdZeroMinute); (":", StdZeroSecond); ("", StdFracSecond9 3); ("", StdNone)].

Fixpoint cutspace (s : list N) : list N :=
  match s with 32%N :: r => cutspace r | _ => s end.

(** [skip(value, prefix)] *)
Fixpoint skip (prefix value : list N) : option (list N) :=
  match prefix with
  | [] => Some value
  | c :: p' =>
      if (c =? 32)%N then
        match value with
        | v :: _ => if (v =? 32)%N then skip_spaces p' (cutspace value) else None
        | [] => skip_spaces p' (cutspace value)
        end
      else match value with
           | v :: value' => if (v =? c)%N then skip p' value' else None
           | [] => None
           end
  end
with skip_spaces (prefix value : list N) : option (list N) :=
  (* [prefix] after [cutspace] *)
  match prefix with
  | [] => Some value
  | c :: p' =>
      if (c =? 32)%N then skip_spaces p' value
      else match value with
           | v :: value' => if (v =? c)%N then skip p' value' else None
           | [] => None
           end
  end.

Definition isDigitAt (s : list N) (i : nat) : bool :=
  match nth_error s i with Some c => is_digit_b c | None => false end.

(** [getnum(s, fixed)] *)
Definition getnum (s : list N) (fixed : bool) : option (Z * list N) :=
  match s with
  | c0 :: r =>
      if negb (is_digit_b c0) then None
      else match r with
           | c1 :: r' =>
               if is_digit_b c1 then Some (Z.of_N (c0 - 48)%N * 10 + Z.of_N (c1 - 48)%N, r')
               else if fixed then None else Some (Z.of_N (c0 - 48)%N, r)
           | [] => if fixed then None else Some (Z.of_N (c0 - 48)%N, r)
           end
  | [] => None
  end.

(** [leadingInt]: leading decimal digits, failing on overflow past 2^63 *)
Fixpoint leadingInt (s : list N) (x : Z) : option (Z * list N) :=
  match s with
  | c :: r =>
      if negb (is_digit_b c) then Some (x, s)
      else if 2 ^ 63 / 10 <? x then None
      else let x' := x * 10 + Z.of_N (c - 48) in
           if 2 ^ 63 <? x' then None else leadingInt r x'
  | [] => Some (x, [])
  end.

(** [atoi] of package time *)
Definition atoi (s : list N) : option Z :=
  let '(neg, s') := match s with
                    | c :: r => if (c =? 45)%N then (true, r)
                                else if (c =? 43)%N then (false, r) else (false, s)
                    | [] => (false, s)
                    end in
  match leadingInt s' 0 with
  | Some (q, []) => Some (if neg then - wrap64 q else wrap64 q)
  | _ => None
  end.

Definition commaOrPeriod (c : N) : bool := (c =? 46)%N || (c =? 44)%N.

Fixpoint pow10_scale (k : nat) (x : Z) : Z :=
  match k with O => x | S k' => pow10_scale k' (x * 10) end.

(** [parseNanoseconds(value, nbytes)] *)
Definition parseNanoseconds (value : list N) (nbytes : nat) : option Z :=
  match value with
  | c :: _ =>
      if negb (commaOrPeriod c) then None else
      let nbytes' := if (10 <? nbytes)%nat then 10%nat else nbytes in
      let value' := firstn nbytes' value in
      match atoi (skipn 1 (firstn nbytes' value')) with
      | None => None
      | Some ns => if ns <? 0 then None else Some (pow10_scale (10 - nbytes') ns)
      end
  | [] => None
  end.

Fixpoint count_digits_from (s : list N) : nat :=
  match s with c :: r => if is_digit_b c then S (count_digits_from r) else O | [] => O end.

Record parse_state := mkPS {
  ps_year : Z; ps_month : Z; ps_day : Z; ps_hour : Z; ps_min : Z; ps_sec : Z; ps_nsec : Z
}.

Definition ps0 : parse_state := mkPS 0 (-1) (-1) 0 0 0 0.

Definition isFracChunk (c : stdChunk) : bool :=
  match c with StdFracSecond9 _ => true | _ => false end.

(** one standard chunk: [None] is any parse error (range or syntax) *)
Definition parse_std (std : stdChunk) (next : stdChunk) (value : list N) (st : parse_state)
    : option (list N * parse_state) :=
  let '(mkPS y mo d h mi se ns) := st in
  match std with
  | StdNone => Some (value, st)
  | StdLongYear =>
      if (List.length value <? 4)%nat || negb (isDigitAt value 0) then None else
      match atoi (firstn 4 value) with
      | Some y' => Some (skipn 4 value, mkPS y' mo d h mi se ns)
      | None => None
      end
  | StdZeroMonth =>
      match getnum value true with
      | Some (m, v) => if (m <=? 0) || (12 <? m) then None else Some (v, mkPS y m d h mi se ns)
      | None => None
      end
  | StdZeroDay =>
      match getnum value true with
      | Some (dd, v) => Some (v, mkPS y mo dd h mi se ns)
      | None => None
      end
  | StdHour =>
      match getnum value false with
      | Some (hh, v) => if (hh <? 0) || (24 <=? hh) then None else Some (v, mkPS y mo d hh mi se ns)
      | None => None
      end
  | StdZeroMinute =>
      match getnum value true with
      | Some (mm, v) => if (mm <? 0) || (60 <=? mm) then None else Some (v, mkPS y mo d h mm se ns)
      | None => None
      end
  | StdZeroSecond =>
      match getnum value true with
      | Some (ss, v) =>
          if (ss <? 0) || (60 <=? ss) then None else
          let st' := mkPS y mo d h mi ss ns in
          match v with
          | c :: _ :: _ =>
              if commaOrPeriod c && isDigitAt v 1 && negb (isFracChunk next) then
                let n := (2 + count_digits_from (skipn 2 v))%nat in
                match parseNanoseconds v n with
                | Some ns' => Some (skipn n v, mkPS y mo d h mi ss ns')
                | None => None
                end
              else Some (v, st')
          | _ => Some (v, st')
          end
      | None => None
      end
  | StdFracSecond9 _ =>
      match value with
      | c :: c1 :: _ =>
          if negb (commaOrPeriod c) || negb (is_digit_b c1) then Some (value, st) else
          let i := count_digits_from (skipn 1 value) in
          match parseNanoseconds value (1 + i) with
          | Some ns' => Some (skipn (1 + i) value, mkPS y mo d h mi se ns')
          | None => None
          end
      | _ => Some (value, st)
      end
  end.

Fixpoint parse_chunks (chunks : list (string * stdChunk)) (value : list N) (st : parse_state)
    : option parse_state :=
  match chunks with
  | [] => Some st
  | (prefix, std) :: rest =>
      match skip (bytes prefix) value with
      | None => None
      | Some v =>
          match std with
          | StdNone => match v with [] => Some st | _ :: _ => None end  (* extra text *)
          | _ =>
              let next := match rest with (_, s) :: _ => s | [] => StdNone end in
              match parse_std std next v st with
              | Some (v', st') => parse_chunks rest v' st'
              | None => None
              end
          end
      end
  end.

Definition isLeap (year : Z) : bool :=
  (year mod 4 =? 0) && (negb (year mod 100 =? 0) || (year mod 400 =? 0)).

(** [daysBefore[m]]: days before month [m] in a non-leap year *)
Definition daysBefore (m : Z) : Z :=
  nth (Z.to_nat m) [0; 31; 59; 90; 120; 151; 181; 212; 243; 273; 304; 334; 365] 0.

Definition daysIn (m year : Z) : Z :=
  if (m =? 2) && isLeap year then 29 else daysBefore m - daysBefore (m - 1).

(** [Date(year, month, day, hour, min, sec, nsec, UTC)] for in-range fields,
    as nanoseconds since [0001-01-01 00:00:00 UTC] *)
Definition date_instant (y mo d h mi s ns : Z) : Time :=
  let y1 := y - 1 in
  let days := y1 * 365 + y1 / 4 - y1 / 100 + y1 / 400 + daysBefore (mo - 1)
              + (if (2 <? mo) && isLeap y then 1 else 0) + (d - 1) in
  (((days * 24 + h) * 60 + mi) * 60 + s) * 1000000000 + ns.

Definition time_parse (value : string) : option Time :=
  match parse_chunks layout_chunks (bytes value) ps0 with
  | None => None
  | Some (mkPS y mo d h mi s ns) =>
      let mo := if mo <? 0 then 1 else mo in
      let d := if d <? 0 then 1 else d in
      if (d <? 1) || (daysIn mo y <? d) then None
      else Some (date_instant y mo d h mi s ns)
  end.


(* ------------------------------------------------------------------ *)
(** ** [getStartTime], [getEndTime], [analyzeLogFile] *)

Definition getStartTime (logMessages : list LogMessage) : outcome Time :=
  match logMessages with
  | [] => Ok zeroTime
  | lm :: _ => match time_parse (timestamp lm) with
               | Some t => Ok t
               | None => Panic "Unable to parse start time"
               end
  end.

Definition getEndTime (logMessages : list LogMessage) : outcome Time :=
  match logMessages with
  | [] => Ok zeroTime
  | _ :: _ => match time_parse (timestamp (last logMessages zeroLogMessage)) with
              | Some t => Ok t
              | None => Panic "Unable to parse end time"
              end
  end.

(** the summary [analyzeLogFile] sends on the channel; [ord] is the
    iteration order of the map ranged over in [getTopFiveLogMessages] *)
Definition analyzeLogFile (file : option string) (ord : list string) : outcome LogAnalysis :=
  let logMessages := parseLogFile file in
  let '(tops, freqs) := getTopFiveLogMessages ord logMessages in
  st <- getStartTime logMessages ;;
  et <- getEndTime logMessages ;;
  Ok (mkLogAnalysis (getNumEntries logMessages) (getLogSeverityFrequency logMessages)
                    tops freqs st et).

(* ------------------------------------------------------------------ *)
(** ** [analyzeTopFiveLogMessages] *)

Definition slot_count (la : LogAnalysis) : nat :=
  Nat.min 5 (List.length (topFiveLogMessages la)).

(** [rankedLogMessages[tops[index]] += freqs[index]] for [index < maxMessages];
    [freqs[index]] panics when out of range *)
Definition add_slots (m : gomap) (la : LogAnalysis) : outcome gomap :=
  fold_left (fun acc index =>
               m <- acc ;;
               match nth_error (topFiveLogMessageFrequencies la) index with
               | Some f => Ok (map_add m (nth index (topFiveLogMessages la) "") f)
               | None => Panic "index out of range"
               end)
            (seq 0 (slot_count la)) (Ok m).

Definition rank_slots (logAnalyses : list LogAnalysis) : outcome gomap :=
  fold_left (fun acc la => m <- acc ;; add_slots m la) logAnalyses (Ok []).

(** [ord] is the iteration order of [rankedLogMessages] *)
Definition analyzeTopFiveLogMessages (ord : list string) (logAnalyses : list LogAnalysis)
    : outcome (list string) :=
  ranked <- rank_slots logAnalyses ;;
  let messages := sort_stable (by_count ranked) ord in
  let maxMessages := Nat.min 5 (List.length messages) in
  Ok (fold_left (fun acc index => acc ++ [nth index messages ""]) (seq 0 maxMessages) []).

(* ------------------------------------------------------------------ *)
(** ** [analyzelogAnalyses] (the reducer) *)

Definition reduce_step (final la : LogAnalysis) : LogAnalysis :=
  let f := logSeverityFrequency final in
  let g := logSeverityFrequency la in
  mkLogAnalysis
    (add64 (numEntries final) (numEntries la))
    (mkLogSeverityFrequency (add64 (debug f) (debug g)) (add64 (info f) (info g))
                            (add64 (warning f) (warning g)) (add64 (error f) (error g)))
    (topFiveLogMessages final) (topFiveLogMessageFrequencies final)
    (if After (startTime final) (startTime la) then startTime la else startTime final)
    (if Before (endTime final) (endTime la) then endTime la else endTime final).

Definition analyzelogAnalyses (ord : list string) (logAnalyses : list LogAnalysis)
    : outcome LogAnalysis :=
  match logAnalyses with
  | [] => Panic "No analysis found"
  | la0 :: _ =>
      topFive <- analyzeTopFiveLogMessages ord logAnalyses ;;
      let maxMessages := Nat.min 5 (List.length topFive) in
      let tops := fold_left (fun acc index => acc ++ [nth index topFive ""])
                            (seq 0 maxMessages) [] in
      let init := mkLogAnalysis 0 zeroSeverity tops [] (startTime la0) (endTime la0) in
      Ok (fold_left reduce_step logAnalyses init)
  end.

(* ------------------------------------------------------------------ *)
(** ** [analyzeLogFiles]

    One goroutine per path runs [analyzeLogFile]; file [i] has content
    [nth i files None] and its map is ranged over in order [nth i ords []].
    The results are received from the channel in the order [arrival], a
    permutation of the file indices; a panic in any goroutine ends the
    program.  [gord] is the iteration order of the reducer's map. *)

Definition arrival_order (n : nat) (arrival : list nat) : Prop :=
  Permutation arrival (seq 0 n).

Definition task (files : list (option string)) (ords : list (list string)) (i : nat)
    : outcome LogAnalysis :=
  analyzeLogFile (nth i files None) (nth i ords []).

Definition collect (files : list (option string)) (ords : list (list string))
    (arrival : list nat) : outcome (list LogAnalysis) :=
  fold_left (fun acc i => las <- acc ;; la <- task files ords i ;; Ok (las ++ [la]))
            arrival (Ok []).

Definition analyzeLogFiles (files : list (option string)) (ords : list (list string))
    (arrival : list nat) (gord : list string) : outcome LogAnalysis :=
  logAnalyses <- collect files ords arrival ;;
  analyzelogAnalyses gord logAnalyses.

(* ------------------------------------------------------------------ *)
(** ** Auxiliary definitions of the proofs *)

Definition count_desc {A} (c : A -> Z) (a b : A) : Prop := c b <= c a.
Definition count_less {A} (c : A -> Z) (a b : A) : bool := c b <? c a.

Definition is_min (r : Z) (xs : list Z) : Prop := In r xs /\ forall x, In x xs -> r <= x.
Definition is_max (r : Z) (xs : list Z) : Prop := In r xs /\ forall x, In x xs -> x <= r.

Definition addp (m : gomap) (p : string * Z) : gomap := map_add m (fst p) (snd p).

Fixpoint sumk (k : string) (ps : list (string * Z)) : Z :=
  match ps with
  | [] => 0
  | (k', v) :: r => (if String.eqb k' k then v else 0) + sumk k r
  end.

(** the (message, frequency) pairs read at [index < maxMessages] *)
Definition slot_pairs (la : LogAnalysis) : list (string * Z) :=
  map (fun i => (nth i (topFiveLogMessages la) "", nth i (topFiveLogMessageFrequencies la) 0))
      (seq 0 (slot_count la)).

(** every message slot read by the reducer has a frequency *)
Definition slots_wf (la : LogAnalysis) : bool :=
  (slot_count la <=? List.length (topFiveLogMessageFrequencies la))%nat.

Definition rank_from (l : list LogAnalysis) (m : gomap) : gomap :=
  fold_left (fun m la => fold_left addp (slot_pairs la) m) l m.

Definition rank_pure (l : list LogAnalysis) : gomap := rank_from l [].

(** the frequency summed for message [k] over the slots of [l] *)
Fixpoint total (k : string) (l : list LogAnalysis) : Z :=
  match l with
  | [] => 0
  | la :: r => sumk k (slot_pairs la) + total k r
  end.

Definition records_of_messages (ms : list string) : list LogMessage :=
  map (fun m => mkLogMessage "" "" "" "" 0 m) ms.

Definition messages_C1 : list string :=
  ["Error 3"; "Error 1"; "Error 3"; "Error 2"; "Error 3"; "Error 4"; "Error 1"; "Error 5"; "Error 6"].

Definition is_ok {A} (o : outcome A) : bool := match o with Ok _ => true | Panic _ => false end.

Definition delivered (files : list (option string)) (ords : list (list string)) (i : nat)
    : LogAnalysis :=
  match task files ords i with
  | Ok la => la
  | Panic _ => mkLogAnalysis 0 zeroSeverity [] [] zeroTime zeroTime
  end.

Definition emptyLogAnalysis : LogAnalysis :=
  mkLogAnalysis 0 zeroSeverity (repeat "" 5) (repeat 0 5) zeroTime zeroTime.

(** no line of the file parses (an empty file is the one line [""]), or
    the file cannot be read *)
Definition unusable_file (file : option string) : Prop :=
  match file with
  | None => True
  | Some data => Forall (fun l => snd (parseLogMessage l) <> None) (split_char "010" data)
  end.

(** each goroutine ranges over its own map in an order it is free to pick *)
Definition valid_orders (files : list (option string)) (ords : list (list string)) : Prop :=
  forall i, iteration_order (count_messages (parseLogFile (nth i files None))) (nth i ords []).

Definition log1Content : string :=
  "2024-01-01 00:00:00.000 | INFO | app.module: function: 123 - User logged in" ++
  String "010"%char "2024-01-01 00:01:00.000 | ERROR | app.module: function: 124 - Database error".

Definition log2Content : string :=
  "2024-01-01 00:02:00.000 | WARNING | app.module: function: 125 - Low memory" ++
  String "010"%char "2024-01-01 00:03:00.000 | ERROR | app.module: function: 126 - Database error".

Definition test_files : list (option string) := [Some log1Content; Some log2Content].

(** occurrences of a byte in a string, and whether it occurs *)
Fixpoint count_char (c : ascii) (s : string) : nat :=
  match s with
  | EmptyString => O
  | String a r => ((if Ascii.eqb a c then 1 else 0) + count_char c r)%nat
  end.

Fixpoint contains_char (c : ascii) (s : string) : bool :=
  match s with
  | EmptyString => false
  | String a r => Ascii.eqb a c || contains_char c r
  end.

(** [parseLogMessage] returns a nil error on the line *)
Definition line_accepted (logRow : string) : bool :=
  match snd (parseLogMessage logRow) with None => true | Some _ => false end.

(** records with exactly the given severity, and with none of the four *)
Definition count_severity (sev : string) (lms : list LogMessage) : nat :=
  List.length (filter (fun lm => String.eqb (severity lm) sev) lms).

Definition known_severity (lm : LogMessage) : bool :=
  String.eqb (severity lm) "DEBUG" || String.eqb (severity lm) "INFO" ||
  String.eqb (severity lm) "WARNING" || String.eqb (severity lm) "ERROR".

Definition count_other_severity (lms : list LogMessage) : nat :=
  List.length (filter (fun lm => negb (known_severity lm)) lms).

(** records with exactly the given message *)
Definition count_message (m : string) (lms : list LogMessage) : nat :=
  List.length (filter (fun lm => String.eqb (message lm) m) lms).

(** the mathematical sum of a list of integers *)
Definition sum_Z (xs : list Z) : Z := fold_right Z.add 0 xs.

(** a log line assembled from its six pieces around the delimiters that
    [parseLogMessage] splits on *)
Definition log_row (ts sev md fn ln msg : string) : string :=
  ts ++ String "|"%char (sev ++ String "|"%char (md ++ String ":"%char
    (fn ++ String ":"%char (ln ++ String "-"%char msg)))).

(** a computable permutation test on lists of strings *)
Definition perm_bool (l1 l2 : list string) : bool :=
  forallb (fun x => Nat.eqb (count_occ string_dec l1 x) (count_occ string_dec l2 x)) (l1 ++ l2).

(* ================================================================== *)
(** * Proofs *)

(* ------------------------------------------------------------------ *)
(** ** Examples of the embedded functions *)

Example ParseInt_dec : ParseInt "123" 0 16 = (123, None).
Proof. vm_compute. reflexivity. Qed.
Example ParseInt_hex : ParseInt "0x1F" 0 16 = (31, None).
Proof. vm_compute. reflexivity. Qed.
Example ParseInt_oct : ParseInt "017" 0 16 = (15, None).
Proof. vm_compute. reflexivity. Qed.
Example ParseInt_bad8 : ParseInt "08" 0 16 = (0, Some ErrSyntax).
Proof. vm_compute. reflexivity. Qed.
Example ParseInt_range : ParseInt "40000" 0 16 = (32767, Some ErrRange).
Proof. vm_compute. reflexivity. Qed.
Example ParseInt_neg : ParseInt "-32768" 0 16 = (-32768, None).
Proof. vm_compute. reflexivity. Qed.
Example ParseInt_us : ParseInt "1_000" 0 16 = (1000, None).
Proof. vm_compute. reflexivity. Qed.
Example ParseInt_us_bad : ParseInt "1__0" 0 16 = (0, Some ErrSyntax).
Proof. vm_compute. reflexivity. Qed.
Example ParseInt_empty : ParseInt "" 0 16 = (0, Some ErrSyntax).
Proof. vm_compute. reflexivity. Qed.
Example ParseInt_zero : ParseInt "0" 0 16 = (0, None).
Proof. vm_compute. reflexivity. Qed.
Example TrimSpace_ex : TrimSpace "  a b 	" = "a b".
Proof. vm_compute. reflexivity. Qed.
Example split_ex : split_char "|" "a|b||" = ["a"; "b"; ""; ""].
Proof. vm_compute. reflexivity. Qed.
Example time_parse_ms : time_parse "2024-01-02 15:04:05.999" =
  Some (date_instant 2024 1 2 15 4 5 999000000).
Proof. vm_compute. reflexivity. Qed.
Example time_parse_no_frac : time_parse "2024-01-02 15:04:05" =
  Some (date_instant 2024 1 2 15 4 5 0).
Proof. vm_compute. reflexivity. Qed.
Example time_parse_bad_day : time_parse "2023-02-29 15:04:05.000" = None.
Proof. vm_compute. reflexivity. Qed.
Example time_parse_word : time_parse "yesterday" = None.
Proof. vm_compute. reflexivity. Qed.
Example time_zero : date_instant 1 1 1 0 0 0 0 = zeroTime.
Proof. vm_compute. reflexivity. Qed.
Example time_unix : date_instant 1970 1 1 0 0 0 0 = 62135596800 * 1000000000.
Proof. vm_compute. reflexivity. Qed.

(* ------------------------------------------------------------------ *)
(** ** Strings and [TrimSpace] *)

Section StringFacts.
Local Open Scope string_scope.

Lemma sapp_nil_r (s : string) : s ++ "" = s.
Proof. induction s; simpl; congruence. Qed.

Lemma sapp_assoc (a b c : string) : a ++ (b ++ c) = (a ++ b) ++ c.
Proof. induction a; simpl; congruence. Qed.

Lemma slength_app (a b : string) : String.length (a ++ b) = (String.length a + String.length b)%nat.
Proof. induction a; simpl; congruence. Qed.

Lemma srev_app (a b : string) : srev (a ++ b) = srev b ++ srev a.
Proof.
  induction a as [|c a IH]; simpl.
  - now rewrite sapp_nil_r.
  - rewrite IH. now rewrite sapp_assoc.
Qed.

Lemma srev_involutive (s : string) : srev (srev s) = s.
Proof. induction s as [|c s IH]; simpl; [reflexivity|]. now rewrite srev_app, IH. Qed.

Lemma strip_prefix_some (q s r : string) : strip_prefix q s = Some r <-> s = q ++ r.
Proof.
  revert s; induction q as [|a q IH]; intros s; simpl.
  - split; congruence.
  - destruct s as [|b s].
    + split; discriminate.
    + destruct (Ascii.eqb_spec a b) as [->|Hne].
      * rewrite IH. split; [intros ->; reflexivity | intros H; injection H; auto].
      * split; [discriminate | intros H; injection H; intros; congruence].
Qed.

Lemma strip_suffix_some (q s r : string) : strip_suffix q s = Some r <-> s = r ++ q.
Proof.
  unfold strip_suffix. split.
  - destruct (strip_prefix (srev q) (srev s)) as [r'|] eqn:E; simpl; [|discriminate].
    intros H; injection H as <-.
    apply strip_prefix_some in E.
    rewrite <- (srev_involutive s), E, srev_app, srev_involutive. reflexivity.
  - intros ->. rewrite srev_app.
    assert (E : strip_prefix (srev q) (srev q ++ srev r) = Some (srev r))
      by (apply strip_prefix_some; reflexivity).
    rewrite E. simpl. now rewrite srev_involutive.
Qed.

End StringFacts.

Lemma first_some_none {A B} (f : A -> option B) (l : list A) :
  first_some f l = None <-> (forall a, In a l -> f a = None).
Proof.
  induction l as [|a l IH]; simpl.
  - split; [intros _ x []|reflexivity].
  - destruct (f a) eqn:E.
    + split; [discriminate|]. intros H. rewrite (H a (or_introl eq_refl)) in E. discriminate.
    + rewrite IH. split.
      * intros H x [<-|Hx]; auto.
      * intros H x Hx; auto.
Qed.

Lemma first_some_some {A B} (f : A -> option B) (l : list A) (b : B) :
  first_some f l = Some b -> exists a, In a l /\ f a = Some b.
Proof.
  induction l as [|a l IH]; simpl; [discriminate|].
  destruct (f a) eqn:E.
  - intros H; injection H as ->. eauto.
  - intros H. destruct (IH H) as (x & Hx & Hf). eauto.
Qed.

Lemma space_seqs_nonempty (q : string) : In q space_seqs -> q <> EmptyString.
Proof. intros H; vm_compute in H; repeat destruct H as [<-|H]; try discriminate; destruct H. Qed.

Lemma strip_space_prefix_shorter (s s' : string) :
  strip_space_prefix s = Some s' -> (String.length s' < String.length s)%nat.
Proof.
  intros H. apply first_some_some in H as (q & Hq & Hs).
  apply strip_prefix_some in Hs. subst s. rewrite slength_app.
  destruct q; [exfalso; now apply (space_seqs_nonempty _ Hq)|]. simpl; lia.
Qed.

Lemma strip_space_suffix_shorter (s s' : string) :
  strip_space_suffix s = Some s' -> (String.length s' < String.length s)%nat.
Proof.
  intros H. apply first_some_some in H as (q & Hq & Hs).
  apply strip_suffix_some in Hs. subst s. rewrite slength_app.
  destruct q; [exfalso; now apply (space_seqs_nonempty _ Hq)|]. simpl; lia.
Qed.

Lemma trim_left_fuel_done (n : nat) (s : string) :
  (String.length s <= n)%nat -> strip_space_prefix (trim_left_fuel n s) = None.
Proof.
  revert s; induction n as [|n IH]; intros s Hl; simpl.
  - destruct s; [|simpl in Hl; lia].
    apply first_some_none. intros q Hq.
    destruct q; [exfalso; now apply (space_seqs_nonempty _ Hq)|reflexivity].
  - destruct (strip_space_prefix s) as [s'|] eqn:E; [|exact E].
    apply IH. apply strip_space_prefix_shorter in E. lia.
Qed.

Lemma trim_right_fuel_done (n : nat) (s : string) :
  (String.length s <= n)%nat -> strip_space_suffix (trim_right_fuel n s) = None.
Proof.
  revert s; induction n as [|n IH]; intros s Hl; simpl.
  - destruct s; [|simpl in Hl; lia].
    apply first_some_none. intros q Hq. unfold strip_suffix.
    destruct (srev q) eqn:Eq; [|reflexivity].
    exfalso. apply (space_seqs_nonempty _ Hq).
    rewrite <- (srev_involutive q), Eq. reflexivity.
  - destruct (strip_space_suffix s) as [s'|] eqn:E; [|exact E].
    apply IH. apply strip_space_suffix_shorter in E. lia.
Qed.

Lemma trim_right_fuel_prefix (n : nat) (s : string) :
  exists x, s = (trim_right_fuel n s ++ x)%string.
Proof.
  revert s; induction n as [|n IH]; intros s; simpl.
  - exists EmptyString. now rewrite sapp_nil_r.
  - destruct (strip_space_suffix s) as [s'|] eqn:E.
    + apply first_some_some in E as (q & _ & Hs). apply strip_suffix_some in Hs.
      destruct (IH s') as [x Hx]. exists (x ++ q)%string.
      rewrite Hs, Hx at 1. now rewrite sapp_assoc.
    + exists EmptyString. now rewrite sapp_nil_r.
Qed.

Lemma not_begins_iff (s : string) : ~ begins_with_space s <-> strip_space_prefix s = None.
Proof.
  unfold begins_with_space, strip_space_prefix. rewrite first_some_none. split.
  - intros H q Hq. destruct (strip_prefix q s) as [r|] eqn:E; [|reflexivity].
    exfalso. apply H. exists q, r. split; [exact Hq|]. now apply strip_prefix_some.
  - intros H (q & r & Hq & ->).
    assert (E : strip_prefix q (q ++ r) = Some r) by (apply strip_prefix_some; reflexivity).
    rewrite (H q Hq) in E. discriminate.
Qed.

Lemma not_ends_iff (s : string) : ~ ends_with_space s <-> strip_space_suffix s = None.
Proof.
  unfold ends_with_space, strip_space_suffix. rewrite first_some_none. split.
  - intros H q Hq. destruct (strip_suffix q s) as [r|] eqn:E; [|reflexivity].
    exfalso. apply H. exists q, r. split; [exact Hq|]. now apply strip_suffix_some.
  - intros H (q & r & Hq & ->).
    assert (E : strip_suffix q (r ++ q) = Some r) by (apply strip_suffix_some; reflexivity).
    rewrite (H q Hq) in E. discriminate.
Qed.

(** [TrimSpace] leaves no white space at either end *)
Lemma TrimSpace_trimmed (s : string) :
  ~ begins_with_space (TrimSpace s) /\ ~ ends_with_space (TrimSpace s).
Proof.
  unfold TrimSpace.
  set (l := trim_left_fuel (String.length s) s).
  assert (Hl : strip_space_prefix l = None) by (apply trim_left_fuel_done; lia).
  split.
  - intros (q & r & Hq & Hr).
    destruct (trim_right_fuel_prefix (String.length l) l) as [x Hx].
    apply (proj2 (not_begins_iff l) Hl). exists q, (r ++ x)%string. split; [exact Hq|].
    rewrite Hx, Hr. now rewrite sapp_assoc.
  - apply not_ends_iff. apply trim_right_fuel_done. lia.
Qed.

Lemma empty_trimmed : ~ begins_with_space "" /\ ~ ends_with_space "".
Proof.
  split.
  - intros (q & r & Hq & H). destruct q; [now apply (space_seqs_nonempty _ Hq)|discriminate].
  - intros (q & r & Hq & H). destruct r; simpl in H.
    + subst q. now apply (space_seqs_nonempty _ Hq).
    + discriminate.
Qed.

Lemma parse_fields_trimmed (logRow : string) :
  let r := fst (parseLogMessage logRow) in
  (module r = "" \/ exists x, module r = TrimSpace x) /\
  (function r = "" \/ exists x, function r = TrimSpace x).
Proof.
  unfold parseLogMessage.
  destruct (negb _); [simpl; auto|].
  destruct (String.eqb _ _); [simpl; auto|].
  destruct (_ <? 3)%nat; [simpl; auto|].
  destruct (_ <? 2)%nat; [simpl; split; right; eexists; reflexivity|].
  destruct (ParseInt _ _ _) as [ln [e|]]; simpl; split; right; eexists; reflexivity.
Qed.

(** C10: on every line accepted by [parseLogMessage], the module and
    function fields neither begin nor end with white space (a rune for
    which [unicode.IsSpace] holds), whatever spaces surround the
    [:]-delimited tokens in the raw line. *)
Theorem parseLogMessage_module_function_trimmed (logRow : string) (r : LogMessage) :
  parseLogMessage logRow = (r, None) ->
  ~ begins_with_space (module r) /\ ~ ends_with_space (module r) /\
  ~ begins_with_space (function r) /\ ~ ends_with_space (function r).
Proof.
  intros H. pose proof (parse_fields_trimmed logRow) as Hf. rewrite H in Hf. simpl in Hf.
  destruct Hf as [[Hm|[xm Hm]] [Hn|[xn Hn]]]; rewrite Hm, Hn;
    repeat match goal with
    | |- _ /\ _ => split
    | |- ~ begins_with_space "" => apply empty_trimmed
    | |- ~ ends_with_space "" => apply empty_trimmed
    | |- ~ begins_with_space (TrimSpace _) => apply TrimSpace_trimmed
    | |- ~ ends_with_space (TrimSpace _) => apply TrimSpace_trimmed
    end.
Qed.

Lemma parseLogMessage_module_function_trimmed_witness :
  parseLogMessage "2024-01-02 15:04:05.999 | INFO |  app.module :	function : 123 - User logged in" =
    (mkLogMessage "2024-01-02 15:04:05.999" "INFO" "app.module" "function" 123 "User logged in", None) /\
  ~ begins_with_space "app.module" /\ ~ ends_with_space "app.module" /\
  ~ begins_with_space "function" /\ ~ ends_with_space "function".
Proof.
  split; [vm_compute; reflexivity|].
  exact (parseLogMessage_module_function_trimmed
           "2024-01-02 15:04:05.999 | INFO |  app.module :	function : 123 - User logged in"
           (mkLogMessage "2024-01-02 15:04:05.999" "INFO" "app.module" "function" 123 "User logged in")
           ltac:(vm_compute; reflexivity)).
Defined.

(* ------------------------------------------------------------------ *)
(** ** The line parser on concrete lines *)

(** the cases of [TestParseLogMessage] *)
Example parse_test_valid :
  parseLogMessage "2024-01-02 15:04:05.999 | INFO | app.module: function: 123 - User logged in" =
  (mkLogMessage "2024-01-02 15:04:05.999" "INFO" "app.module" "function" 123 "User logged in", None).
Proof. vm_compute. reflexivity. Qed.
Example parse_test_empty : snd (parseLogMessage "") <> None.
Proof. vm_compute. discriminate. Qed.
Example parse_test_no_severity :
  snd (parseLogMessage "2024-01-02 15:04:05.999 | | app.module: function: 123 - User logged in") <> None.
Proof. vm_compute. discriminate. Qed.
Example parse_test_no_line :
  snd (parseLogMessage "2024-01-02 15:04:05.999 | INFO | app.module: function: - User logged in") <> None.
Proof. vm_compute. discriminate. Qed.

(** C3 (code bug): [parseLogMessage] keeps only the segment between the
    second and third [:] and only the segment between the first and second
    [-], so a message containing [-] or [:] is cut at that character; and
    the line number is read with base prefix rules ([ParseInt(_, 0, 16)]),
    so the decimal line number [08] is rejected and [017] reads as 15. *)
Theorem parseLogMessage_truncates_and_base_prefix :
  parseLogMessage "2024-01-02 15:04:05.999 | INFO | app.module: function: 123 - Disk full - retrying" =
    (mkLogMessage "2024-01-02 15:04:05.999" "INFO" "app.module" "function" 123 "Disk full", None) /\
  parseLogMessage "2024-01-02 15:04:05.999 | INFO | app.module: function: 123 - Error: timeout" =
    (mkLogMessage "2024-01-02 15:04:05.999" "INFO" "app.module" "function" 123 "Error", None) /\
  snd (parseLogMessage "2024-01-02 15:04:05.999 | INFO | app.module: function: 08 - User logged in")
    = Some (NumError ErrSyntax) /\
  parseLogMessage "2024-01-02 15:04:05.999 | INFO | app.module: function: 017 - User logged in" =
    (mkLogMessage "2024-01-02 15:04:05.999" "INFO" "app.module" "function" 15 "User logged in", None).
Proof. vm_compute. repeat split. Qed.

(* ------------------------------------------------------------------ *)
(** ** Start and end times *)

(** C8: on a non-empty record list, [getStartTime] parses the first
    record's timestamp and [getEndTime] the last one's with the fixed
    layout; each panics exactly when [time.Parse] rejects that timestamp,
    and otherwise returns the parsed instant. *)
Theorem getStartTime_getEndTime_panic_iff (logMessages : list LogMessage) :
  logMessages <> [] ->
  (getStartTime logMessages = Panic "Unable to parse start time" <->
     time_parse (timestamp (hd zeroLogMessage logMessages)) = None) /\
  (forall t, time_parse (timestamp (hd zeroLogMessage logMessages)) = Some t ->
     getStartTime logMessages = Ok t) /\
  (getEndTime logMessages = Panic "Unable to parse end time" <->
     time_parse (timestamp (last logMessages zeroLogMessage)) = None) /\
  (forall t, time_parse (timestamp (last logMessages zeroLogMessage)) = Some t ->
     getEndTime logMessages = Ok t).
Proof.
  intros Hne. destruct logMessages as [|lm r]; [congruence|].
  unfold getStartTime, getEndTime. simpl hd.
  destruct (time_parse (timestamp lm)) as [t0|] eqn:Es;
  destruct (time_parse (timestamp (last (lm :: r) zeroLogMessage))) as [t1|] eqn:Ee;
  (split; [split; congruence|]); (split; [intros t Ht; congruence|]);
  (split; [split; congruence|]); intros t Ht; congruence.
Qed.

Lemma getStartTime_getEndTime_panic_iff_witness :
  let lms := [fst (parseLogMessage "2024-01-01 00:00:00.000 | INFO | m: f: 1 - a");
              fst (parseLogMessage "yesterday | INFO | m: f: 2 - b")] in
  lms <> [] /\
  getStartTime lms = Ok (date_instant 2024 1 1 0 0 0 0) /\
  getEndTime lms = Panic "Unable to parse end time".
Proof.
  intros lms.
  assert (Hne : lms <> []) by discriminate.
  destruct (getStartTime_getEndTime_panic_iff lms Hne) as (_ & Hs & He & _).
  split; [exact Hne|]. split.
  - apply Hs. vm_compute. reflexivity.
  - apply He. vm_compute. reflexivity.
Defined.

(* ------------------------------------------------------------------ *)
(** ** 64-bit arithmetic and order-independent folds *)

Lemma wrap64_add_l (x y : Z) : wrap64 (wrap64 x + y) = wrap64 (x + y).
Proof.
  unfold wrap64.
  replace ((x + 2 ^ 63) mod 2 ^ 64 - 2 ^ 63 + y + 2 ^ 63)
    with ((x + 2 ^ 63) mod 2 ^ 64 + y) by ring.
  rewrite Zplus_mod_idemp_l. f_equal. f_equal. ring_simplify. reflexivity.
Qed.

Lemma wrap64_idem (x : Z) : wrap64 (wrap64 x) = wrap64 x.
Proof. pose proof (wrap64_add_l x 0) as H. rewrite !Z.add_0_r in H. exact H. Qed.

Lemma add64_right_comm (a x y : Z) : add64 (add64 a x) y = add64 (add64 a y) x.
Proof. unfold add64. rewrite !wrap64_add_l. f_equal. ring. Qed.

Section FoldPerm.
Context {A B : Type} (f : B -> A -> B).
Hypothesis f_right_comm : forall b x y, f (f b x) y = f (f b y) x.

Lemma fold_left_perm (l1 l2 : list A) :
  Permutation l1 l2 -> forall b, fold_left f l1 b = fold_left f l2 b.
Proof.
  induction 1 as [|x l1 l2 _ IH|x y l|l1 l2 l3 _ IH1 _ IH2]; intros b; simpl.
  - reflexivity.
  - apply IH.
  - now rewrite f_right_comm.
  - now rewrite IH1, IH2.
Qed.
End FoldPerm.

Lemma after_min (s x : Z) : (if After s x then x else s) = Z.min s x.
Proof. unfold After. destruct (Z.ltb_spec x s); lia. Qed.

Lemma before_max (s x : Z) : (if Before s x then x else s) = Z.max s x.
Proof. unfold Before. destruct (Z.ltb_spec s x); lia. Qed.

Lemma reduce_step_right_comm (a x y : LogAnalysis) :
  reduce_step (reduce_step a x) y = reduce_step (reduce_step a y) x.
Proof.
  destruct a as [n [d i w e] t fr s en]; destruct x as [n1 [d1 i1 w1 e1] t1 fr1 s1 en1];
  destruct y as [n2 [d2 i2 w2 e2] t2 fr2 s2 en2].
  unfold reduce_step; simpl. rewrite !after_min, !before_max.
  f_equal; [apply add64_right_comm | f_equal; apply add64_right_comm | lia | lia].
Qed.

Lemma fold_reduce_step (l : list LogAnalysis) (a : LogAnalysis) :
  fold_left reduce_step l a =
  mkLogAnalysis
    (fold_left add64 (map numEntries l) (numEntries a))
    (mkLogSeverityFrequency
       (fold_left add64 (map (fun x => debug (logSeverityFrequency x)) l) (debug (logSeverityFrequency a)))
       (fold_left add64 (map (fun x => info (logSeverityFrequency x)) l) (info (logSeverityFrequency a)))
       (fold_left add64 (map (fun x => warning (logSeverityFrequency x)) l) (warning (logSeverityFrequency a)))
       (fold_left add64 (map (fun x => error (logSeverityFrequency x)) l) (error (logSeverityFrequency a))))
    (topFiveLogMessages a) (topFiveLogMessageFrequencies a)
    (fold_left Z.min (map startTime l) (startTime a))
    (fold_left Z.max (map endTime l) (endTime a)).
Proof.
  revert a; induction l as [|x l IH]; intros a.
  - destruct a as [n [d i w e] t fr s en]; reflexivity.
  - simpl. rewrite IH. unfold reduce_step; simpl. rewrite after_min, before_max. reflexivity.
Qed.

(** the minimum computed by a [Z.min] fold *)
Lemma fold_min_spec (xs : list Z) (a : Z) :
  let r := fold_left Z.min xs a in
  r <= a /\ (forall x, In x xs -> r <= x) /\ (r = a \/ In r xs).
Proof.
  revert a; induction xs as [|x xs IH]; intros a; simpl.
  - split; [lia|]. split; [intros _ []|]. left; reflexivity.
  - destruct (IH (Z.min a x)) as (H1 & H2 & H3). split; [lia|]. split.
    + intros y [<-|Hy]; [lia|auto].
    + destruct H3 as [->|H3]; [|right; right; exact H3].
      destruct (Z.min_spec a x) as [[_ ->]|[_ ->]]; [left|right; left]; reflexivity.
Qed.

Lemma fold_max_spec (xs : list Z) (a : Z) :
  let r := fold_left Z.max xs a in
  a <= r /\ (forall x, In x xs -> x <= r) /\ (r = a \/ In r xs).
Proof.
  revert a; induction xs as [|x xs IH]; intros a; simpl.
  - split; [lia|]. split; [intros _ []|]. left; reflexivity.
  - destruct (IH (Z.max a x)) as (H1 & H2 & H3). split; [lia|]. split.
    + intros y [<-|Hy]; [lia|auto].
    + destruct H3 as [->|H3]; [|right; right; exact H3].
      destruct (Z.max_spec a x) as [[_ ->]|[_ ->]]; [right; left|left]; reflexivity.
Qed.

Lemma fold_min_is_min (xs : list Z) (a : Z) : In a xs -> is_min (fold_left Z.min xs a) xs.
Proof.
  intros Ha. destruct (fold_min_spec xs a) as (_ & H2 & [H3|H3]); split; auto.
  rewrite H3; exact Ha.
Qed.

Lemma fold_max_is_max (xs : list Z) (a : Z) : In a xs -> is_max (fold_left Z.max xs a) xs.
Proof.
  intros Ha. destruct (fold_max_spec xs a) as (_ & H2 & [H3|H3]); split; auto.
  rewrite H3; exact Ha.
Qed.

Lemma is_min_unique (r1 r2 : Z) (xs ys : list Z) :
  Permutation xs ys -> is_min r1 xs -> is_min r2 ys -> r1 = r2.
Proof.
  intros Hp [I1 L1] [I2 L2].
  apply (Permutation_in _ Hp) in I1. apply (Permutation_in _ (Permutation_sym Hp)) in I2.
  specialize (L1 _ I2). specialize (L2 _ I1). lia.
Qed.

Lemma is_max_unique (r1 r2 : Z) (xs ys : list Z) :
  Permutation xs ys -> is_max r1 xs -> is_max r2 ys -> r1 = r2.
Proof.
  intros Hp [I1 L1] [I2 L2].
  apply (Permutation_in _ Hp) in I1. apply (Permutation_in _ (Permutation_sym Hp)) in I2.
  specialize (L1 _ I2). specialize (L2 _ I1). lia.
Qed.

(* ------------------------------------------------------------------ *)
(** ** Go maps as association lists *)

Lemma map_get_add (m : gomap) (k k' : string) (v : Z) :
  map_get (map_add m k v) k' =
  if String.eqb k k' then add64 (map_get m k) v else map_get m k'.
Proof.
  induction m as [|[k0 v0] r IH]; simpl.
  - destruct (String.eqb k k'); reflexivity.
  - destruct (String.eqb_spec k0 k) as [->|Hne]; simpl.
    + destruct (String.eqb_spec k k'); reflexivity.
    + rewrite IH. destruct (String.eqb_spec k0 k') as [->|Hne'];
      destruct (String.eqb_spec k k'); congruence.
Qed.

Lemma map_keys_add (m : gomap) (k x : string) (v : Z) :
  In x (map_keys (map_add m k v)) <-> x = k \/ In x (map_keys m).
Proof.
  induction m as [|[k0 v0] r IH]; simpl.
  - intuition.
  - destruct (String.eqb_spec k0 k) as [->|Hne]; simpl.
    + intuition.
    + rewrite IH. intuition.
Qed.

Lemma map_keys_add_nodup (m : gomap) (k : string) (v : Z) :
  NoDup (map_keys m) -> NoDup (map_keys (map_add m k v)).
Proof.
  induction m as [|[k0 v0] r IH]; simpl; intros Hnd.
  - constructor; [intros []|constructor].
  - inversion Hnd as [|? ? Hni Hnd']; subst.
    destruct (String.eqb_spec k0 k) as [->|Hne]; simpl.
    + constructor; assumption.
    + constructor; [|auto]. rewrite map_keys_add. intuition.
Qed.

Lemma map_get_addps (ps : list (string * Z)) (m : gomap) (k : string) :
  wrap64 (map_get m k) = map_get m k ->
  map_get (fold_left addp ps m) k = wrap64 (map_get m k + sumk k ps).
Proof.
  revert m; induction ps as [|[k' v] r IH]; intros m Hw; simpl.
  - rewrite Z.add_0_r. symmetry; exact Hw.
  - assert (Hw' : wrap64 (map_get (addp m (k', v)) k) = map_get (addp m (k', v)) k).
    { unfold addp; simpl; rewrite map_get_add.
      destruct (String.eqb k' k); [apply wrap64_idem|exact Hw]. }
    rewrite (IH _ Hw'). unfold addp; simpl; rewrite map_get_add.
    destruct (String.eqb_spec k' k) as [->|Hne].
    + unfold add64. rewrite wrap64_add_l. f_equal. ring.
    + f_equal.
Qed.

Lemma map_keys_addps (ps : list (string * Z)) (m : gomap) (x : string) :
  In x (map_keys (fold_left addp ps m)) <-> In x (map fst ps) \/ In x (map_keys m).
Proof.
  revert m; induction ps as [|[k v] r IH]; intros m; simpl.
  - intuition.
  - rewrite IH. unfold addp; simpl. rewrite map_keys_add. intuition.
Qed.

Lemma map_keys_addps_nodup (ps : list (string * Z)) (m : gomap) :
  NoDup (map_keys m) -> NoDup (map_keys (fold_left addp ps m)).
Proof.
  revert m; induction ps as [|p r IH]; intros m Hnd; simpl; [exact Hnd|].
  apply IH. apply map_keys_add_nodup. exact Hnd.
Qed.

(* ------------------------------------------------------------------ *)
(** ** The slots a summary contributes to the reducer's map *)

Section SlotLoop.
Variable la : LogAnalysis.

Let step := fun (acc : outcome gomap) (index : nat) =>
  m <- acc ;;
  match nth_error (topFiveLogMessageFrequencies la) index with
  | Some f => Ok (map_add m (nth index (topFiveLogMessages la) "") f)
  | None => Panic "index out of range"
  end.

Lemma slot_loop_panic (idx : list nat) (msg : string) :
  fold_left step idx (Panic msg) = Panic msg.
Proof. induction idx; simpl; auto. Qed.

Lemma slot_loop (idx : list nat) (m : gomap) :
  fold_left step idx (Ok m) =
  if forallb (fun i => i <? List.length (topFiveLogMessageFrequencies la))%nat idx
  then Ok (fold_left addp
             (map (fun i => (nth i (topFiveLogMessages la) "",
                             nth i (topFiveLogMessageFrequencies la) 0)) idx) m)
  else Panic "index out of range".
Proof.
  revert m; induction idx as [|i idx IH]; intros m; simpl; [reflexivity|].
  destruct (nth_error (topFiveLogMessageFrequencies la) i) as [f|] eqn:E.
  - assert (Hlt : (i < List.length (topFiveLogMessageFrequencies la))%nat)
      by (apply nth_error_Some; congruence).
    apply (Nat.ltb_lt) in Hlt. rewrite Hlt. simpl.
    rewrite (nth_error_nth _ _ 0 E). apply IH.
  - apply nth_error_None in E.
    assert (Hge : (i <? List.length (topFiveLogMessageFrequencies la))%nat = false)
      by (apply Nat.ltb_ge; exact E).
    rewrite Hge. simpl. apply slot_loop_panic.
Qed.
End SlotLoop.

Lemma forallb_seq_lt (n len : nat) :
  forallb (fun i => i <? len)%nat (seq 0 n) = (n <=? len)%nat.
Proof.
  destruct (Nat.leb_spec n len) as [H|H].
  - apply forallb_forall. intros i Hi. apply in_seq in Hi. apply Nat.ltb_lt. lia.
  - apply Bool.not_true_iff_false. intros Hf.
    rewrite forallb_forall in Hf. specialize (Hf (len) ltac:(apply in_seq; lia)).
    apply Nat.ltb_lt in Hf. lia.
Qed.

Lemma add_slots_spec (m : gomap) (la : LogAnalysis) :
  add_slots m la =
  if slots_wf la then Ok (fold_left addp (slot_pairs la) m) else Panic "index out of range".
Proof.
  unfold add_slots, slots_wf, slot_pairs. rewrite slot_loop, forallb_seq_lt. reflexivity.
Qed.

Lemma rank_loop_panic (l : list LogAnalysis) (msg : string) :
  fold_left (fun acc la => m <- acc ;; add_slots m la) l (Panic msg) = Panic msg.
Proof. induction l; simpl; auto. Qed.

Lemma rank_loop (l : list LogAnalysis) (m : gomap) :
  fold_left (fun acc la => m <- acc ;; add_slots m la) l (Ok m) =
  if forallb slots_wf l then Ok (rank_from l m) else Panic "index out of range".
Proof.
  revert m; induction l as [|la l IH]; intros m; simpl; [reflexivity|].
  rewrite add_slots_spec. destruct (slots_wf la); simpl.
  - apply IH.
  - apply rank_loop_panic.
Qed.

Lemma rank_slots_spec (l : list LogAnalysis) :
  rank_slots l = if forallb slots_wf l then Ok (rank_pure l) else Panic "index out of range".
Proof. apply rank_loop. Qed.

Lemma rank_from_get (l : list LogAnalysis) (m : gomap) (k : string) :
  wrap64 (map_get m k) = map_get m k ->
  map_get (rank_from l m) k = wrap64 (map_get m k + total k l).
Proof.
  unfold rank_from.
  revert m; induction l as [|la r IH]; intros m Hw; simpl.
  - rewrite Z.add_0_r. symmetry; exact Hw.
  - rewrite IH.
    + rewrite map_get_addps by exact Hw. rewrite wrap64_add_l. f_equal. ring.
    + rewrite map_get_addps by exact Hw. apply wrap64_idem.
Qed.

Lemma rank_pure_get (l : list LogAnalysis) (k : string) :
  map_get (rank_pure l) k = wrap64 (total k l).
Proof. unfold rank_pure. rewrite rank_from_get; reflexivity. Qed.

Lemma total_perm (k : string) (l1 l2 : list LogAnalysis) :
  Permutation l1 l2 -> total k l1 = total k l2.
Proof. induction 1; simpl; lia. Qed.

Lemma rank_from_keys (l : list LogAnalysis) (m : gomap) (x : string) :
  In x (map_keys (rank_from l m)) <->
  (exists la, In la l /\ In x (map fst (slot_pairs la))) \/ In x (map_keys m).
Proof.
  unfold rank_from.
  revert m; induction l as [|la r IH]; intros m; simpl.
  - split; [intros H; right; exact H|intros [(? & [] & _)|H]; exact H].
  - rewrite IH, map_keys_addps. split.
    + intros [(la' & H1 & H2)|[H|H]]; [left; eauto|left; eauto|right; exact H].
    + intros [(la' & [<-|H1] & H2)|H]; [right; left; exact H2|left; eauto|right; right; exact H].
Qed.

Lemma rank_pure_keys (l : list LogAnalysis) (x : string) :
  In x (map_keys (rank_pure l)) <-> exists la, In la l /\ In x (map fst (slot_pairs la)).
Proof.
  unfold rank_pure. rewrite rank_from_keys. simpl. split; [intros [H|[]]; exact H|auto].
Qed.

Lemma rank_from_nodup (l : list LogAnalysis) (m : gomap) :
  NoDup (map_keys m) -> NoDup (map_keys (rank_from l m)).
Proof.
  unfold rank_from.
  revert m; induction l as [|la r IH]; intros m Hm; simpl; [exact Hm|].
  apply IH. apply map_keys_addps_nodup. exact Hm.
Qed.

Lemma rank_pure_keys_perm (l1 l2 : list LogAnalysis) :
  Permutation l1 l2 -> Permutation (map_keys (rank_pure l1)) (map_keys (rank_pure l2)).
Proof.
  intros Hp. apply NoDup_Permutation; try (apply rank_from_nodup; constructor).
  intros x. rewrite !rank_pure_keys. split; intros (la & H1 & H2); exists la; split; auto.
  - exact (Permutation_in _ Hp H1).
  - exact (Permutation_in _ (Permutation_sym Hp) H1).
Qed.

Lemma map_nth_seq_firstn (l : list string) (n : nat) :
  map (fun i => nth i l "") (seq 0 (Nat.min n (List.length l))) = firstn n l.
Proof.
  revert n; induction l as [|a r IH]; intros n.
  - rewrite Nat.min_0_r. destruct n; reflexivity.
  - destruct n as [|n]; [reflexivity|]. simpl.
    rewrite <- seq_shift, map_map. f_equal. apply IH.
Qed.

Lemma slot_pairs_fst (la : LogAnalysis) :
  map fst (slot_pairs la) = firstn 5 (topFiveLogMessages la).
Proof.
  unfold slot_pairs, slot_count. rewrite map_map. apply map_nth_seq_firstn.
Qed.

Lemma fold_app_map {A B} (f : A -> B) (l : list A) (acc : list B) :
  fold_left (fun acc i => acc ++ [f i]) l acc = acc ++ map f l.
Proof.
  revert acc; induction l as [|a l IH]; intros acc; simpl.
  - now rewrite app_nil_r.
  - rewrite IH. now rewrite <- app_assoc.
Qed.

Lemma take_five (ms : list string) :
  fold_left (fun acc index => acc ++ [nth index ms ""]) (seq 0 (Nat.min 5 (List.length ms))) []
  = firstn 5 ms.
Proof. rewrite (fold_app_map (fun i => nth i ms "")). apply map_nth_seq_firstn. Qed.

(* ------------------------------------------------------------------ *)
(** ** The stable sort by descending count *)

Lemma insert_stable_perm {A} (less : A -> A -> bool) (x : A) (l : list A) :
  Permutation (insert_stable less x l) (x :: l).
Proof.
  induction l as [|h t IH]; simpl; [reflexivity|].
  destruct (less h x); [|reflexivity].
  rewrite IH. apply perm_swap.
Qed.

Lemma sort_stable_perm {A} (less : A -> A -> bool) (l : list A) :
  Permutation (sort_stable less l) l.
Proof.
  induction l as [|x l IH]; simpl; [reflexivity|].
  rewrite insert_stable_perm. now apply perm_skip.
Qed.

Lemma sort_stable_ext {A} (f g : A -> A -> bool) (l : list A) :
  (forall a b, f a b = g a b) -> sort_stable f l = sort_stable g l.
Proof.
  intros Hfg. induction l as [|x l IH]; simpl; [reflexivity|].
  rewrite IH. generalize (sort_stable g l) as s.
  induction s as [|h t IHs]; simpl; [reflexivity|]. now rewrite Hfg, IHs.
Qed.

Section CountSort.
Context {A : Type} (c : A -> Z).

Lemma count_desc_trans : forall x y z, count_desc c x y -> count_desc c y z -> count_desc c x z.
Proof. intros x y z; unfold count_desc; lia. Qed.

Lemma insert_sorted (x : A) (l : list A) :
  Sorted (count_desc c) l -> Sorted (count_desc c) (insert_stable (count_less c) x l).
Proof.
  induction 1 as [|h t Ht IH Hh]; simpl.
  - repeat constructor.
  - unfold count_less at 1. destruct (Z.ltb_spec (c x) (c h)) as [Hlt|Hge].
    + constructor; [exact IH|].
      destruct t as [|h' t']; simpl.
      * constructor. unfold count_desc; lia.
      * unfold count_less at 1. destruct (Z.ltb_spec (c x) (c h')).
        -- inversion Hh; subst. constructor. assumption.
        -- constructor. unfold count_desc; lia.
    + constructor; [constructor; assumption|]. constructor. unfold count_desc; lia.
Qed.

Lemma sort_sorted (l : list A) : Sorted (count_desc c) (sort_stable (count_less c) l).
Proof. induction l; simpl; [constructor|]. now apply insert_sorted. Qed.

Lemma sort_strongly_sorted (l : list A) :
  StronglySorted (count_desc c) (sort_stable (count_less c) l).
Proof. apply Sorted_StronglySorted; [exact count_desc_trans|apply sort_sorted]. Qed.

End CountSort.

Lemma sorted_firstn {A} (R : A -> A -> Prop) (n : nat) (l : list A) :
  Sorted R l -> Sorted R (firstn n l).
Proof.
  revert l; induction n as [|n IH]; intros l Hs; [constructor|].
  destruct l as [|a l]; [constructor|]. simpl.
  apply Sorted_inv in Hs as [Hs Hh]. constructor; [now apply IH|].
  destruct n, l; simpl; try constructor. now apply HdRel_inv in Hh.
Qed.

Lemma strongly_sorted_app {A} (R : A -> A -> Prop) (l1 l2 : list A) a b :
  StronglySorted R (l1 ++ l2) -> In a l1 -> In b l2 -> R a b.
Proof.
  induction l1 as [|x l1 IH]; simpl; [intros _ []|].
  intros Hs [<-|Ha] Hb; apply StronglySorted_inv in Hs as [Hs Hf].
  - rewrite Forall_forall in Hf. apply Hf. apply in_or_app. right; exact Hb.
  - now apply IH.
Qed.

Lemma nodup_firstn {A} (n : nat) (l : list A) : NoDup l -> NoDup (firstn n l).
Proof.
  intros H. rewrite <- (firstn_skipn n l) in H. exact (NoDup_app_remove_r _ _ H).
Qed.

(** properties of the first five of [sort_stable] over an iteration order *)
Lemma top_five_spec (c : string -> Z) (keys ord : list string) :
  NoDup keys -> Permutation keys ord ->
  let out := firstn 5 (sort_stable (count_less c) ord) in
  List.length out = Nat.min 5 (List.length keys) /\ NoDup out /\ incl out keys /\
  Sorted (count_desc c) out /\
  (forall a b, In a out -> In b keys -> ~ In b out -> c b <= c a).
Proof.
  intros Hnd Hp out.
  pose proof (sort_stable_perm (count_less c) ord) as Hs.
  assert (Hk : Permutation (sort_stable (count_less c) ord) keys)
    by (rewrite Hs; symmetry; exact Hp).
  split; [|split; [|split; [|split]]].
  - unfold out. rewrite length_firstn, (Permutation_length Hk). reflexivity.
  - apply nodup_firstn. apply (Permutation_NoDup (Permutation_sym Hk) Hnd).
  - intros x Hx. apply (Permutation_in _ Hk).
    rewrite <- (firstn_skipn 5 (sort_stable (count_less c) ord)).
    apply in_or_app. left; exact Hx.
  - apply sorted_firstn, sort_sorted.
  - intros a b Ha Hb Hnb.
    pose proof (sort_strongly_sorted c ord) as Hss.
    rewrite <- (firstn_skipn 5 (sort_stable (count_less c) ord)) in Hss.
    apply (strongly_sorted_app _ _ _ a b Hss Ha).
    apply (Permutation_in _ (Permutation_sym Hk)) in Hb.
    rewrite <- (firstn_skipn 5 (sort_stable (count_less c) ord)) in Hb.
    apply in_app_or in Hb as [Hb|Hb]; [contradiction|exact Hb].
Qed.

(* ------------------------------------------------------------------ *)
(** ** Per-file top five *)

(** the case of [TestGetTopFiveLogMessages], with the map iterated in
    first-seen order *)
Example top_five_test_first_seen :
  let lms := records_of_messages
    ["Error 1"; "Error 1"; "Error 2"; "Error 3"; "Error 3"; "Error 3"; "Error 4"; "Error 5"; "Error 6"] in
  getTopFiveLogMessages (map_keys (count_messages lms)) lms =
  (["Error 3"; "Error 1"; "Error 2"; "Error 4"; "Error 5"], [3; 2; 1; 1; 1]).
Proof. vm_compute. reflexivity. Qed.

(** C1 (code bug): [getTopFiveLogMessages] collects the distinct messages
    by ranging over a Go map, whose iteration order is unspecified, and the
    stable sort keeps that order among equal counts.  On the claim's
    messages, iterating the map in first-seen order gives the claimed
    ranking, while the rotated iteration order that starts at ["Error 6"]
    gives ["Error 3"; "Error 1"; "Error 6"; "Error 2"; "Error 4"]. *)
Theorem getTopFiveLogMessages_ties_follow_map_order :
  let lms := records_of_messages messages_C1 in
  let first_seen := ["Error 3"; "Error 1"; "Error 2"; "Error 4"; "Error 5"; "Error 6"] in
  let rotated := ["Error 6"; "Error 3"; "Error 1"; "Error 2"; "Error 4"; "Error 5"] in
  iteration_order (count_messages lms) first_seen /\
  getTopFiveLogMessages first_seen lms =
    (["Error 3"; "Error 1"; "Error 2"; "Error 4"; "Error 5"], [3; 2; 1; 1; 1]) /\
  iteration_order (count_messages lms) rotated /\
  getTopFiveLogMessages rotated lms =
    (["Error 3"; "Error 1"; "Error 6"; "Error 2"; "Error 4"], [3; 2; 1; 1; 1]).
Proof.
  intros lms first_seen rotated. unfold iteration_order.
  split; [vm_compute; apply Permutation_refl|].
  split; [vm_compute; reflexivity|].
  split; [|vm_compute; reflexivity].
  vm_compute.
  exact (Permutation_sym
           (Permutation_cons_append ["Error 3"; "Error 1"; "Error 2"; "Error 4"; "Error 5"] "Error 6")).
Qed.

(* ------------------------------------------------------------------ *)
(** ** The reducer's top five *)

Lemma analyzeTopFive_spec (ord : list string) (las : list LogAnalysis) :
  forallb slots_wf las = true ->
  analyzeTopFiveLogMessages ord las =
  Ok (firstn 5 (sort_stable (count_less (map_get (rank_pure las))) ord)).
Proof.
  intros Hwf. unfold analyzeTopFiveLogMessages. rewrite rank_slots_spec, Hwf. simpl.
  f_equal. apply take_five.
Qed.

(** X13: for summaries that carry a frequency for each message slot the
    reducer reads, and every iteration order of its map, the reducer's top
    five sums, per message text,
    the frequencies of the first five slots of every summary -- the empty
    placeholder text included, which thereby becomes a key of the map -- and
    returns min(5, number of texts) distinct texts, sorted descending by
    summed frequency, none of them ranked below a text left out. *)
Theorem analyzeTopFiveLogMessages_ranking (ord : list string) (las : list LogAnalysis) :
  Forall (fun la => slots_wf la = true) las ->
  iteration_order (rank_pure las) ord ->
  let freq := map_get (rank_pure las) in
  (forall k, freq k = wrap64 (total k las)) /\
  (forall k, In k ord <-> exists la, In la las /\ In k (firstn 5 (topFiveLogMessages la))) /\
  exists out, analyzeTopFiveLogMessages ord las = Ok out /\
    List.length out = Nat.min 5 (List.length ord) /\ NoDup out /\ incl out ord /\
    Sorted (count_desc freq) out /\
    (forall a b, In a out -> In b ord -> ~ In b out -> freq b <= freq a).
Proof.
  intros Hwf Hord freq.
  assert (Hwfb : forallb slots_wf las = true).
  { apply forallb_forall. intros la Hla. rewrite Forall_forall in Hwf. auto. }
  split; [intros k; apply rank_pure_get|].
  split.
  - intros k. split.
    + intros Hk. apply (Permutation_in _ (Permutation_sym Hord)) in Hk.
      apply rank_pure_keys in Hk as (la & H1 & H2). rewrite slot_pairs_fst in H2. eauto.
    + intros (la & H1 & H2). apply (Permutation_in _ Hord). apply rank_pure_keys.
      exists la. rewrite slot_pairs_fst. auto.
  - exists (firstn 5 (sort_stable (count_less freq) ord)).
    split; [apply analyzeTopFive_spec; exact Hwfb|].
    assert (Hnd : NoDup ord)
      by exact (Permutation_NoDup Hord (rank_from_nodup las [] (NoDup_nil _))).
    destruct (top_five_spec freq ord ord Hnd (Permutation_refl ord)) as (H1 & H2 & H3 & H4 & H5).
    auto.
Qed.

Lemma analyzeTopFiveLogMessages_ranking_witness :
  let las := [mkLogAnalysis 2 (mkLogSeverityFrequency 0 1 0 1)
                ["User logged in"; "Database error"; ""; ""; ""] [1; 1; 0; 0; 0] 0 0;
              mkLogAnalysis 2 (mkLogSeverityFrequency 0 0 1 1)
                ["Low memory"; "Database error"; ""; ""; ""] [1; 1; 0; 0; 0] 0 0] in
  let ord := ["Database error"; "User logged in"; ""; "Low memory"] in
  Forall (fun la => slots_wf la = true) las /\ iteration_order (rank_pure las) ord /\
  analyzeTopFiveLogMessages ord las = Ok ["Database error"; "User logged in"; "Low memory"; ""] /\
  map_get (rank_pure las) "Database error" = 2.
Proof.
  intros las ord.
  assert (Hwf : Forall (fun la => slots_wf la = true) las) by (repeat constructor).
  assert (Hord : iteration_order (rank_pure las) ord).
  { unfold iteration_order. vm_compute. apply perm_swap. }
  destruct (analyzeTopFiveLogMessages_ranking ord las Hwf Hord) as (Hf & _ & _).
  split; [exact Hwf|]. split; [exact Hord|]. split; [vm_compute; reflexivity|].
  rewrite Hf. vm_compute. reflexivity.
Defined.

Lemma perm_bool_sound (l1 l2 : list string) : perm_bool l1 l2 = true -> Permutation l1 l2.
Proof.
  intros H. apply (Permutation_count_occ string_dec). intros x.
  destruct (in_dec string_dec x (l1 ++ l2)) as [Hx|Hx].
  - unfold perm_bool in H. rewrite forallb_forall in H. apply Nat.eqb_eq, H, Hx.
  - assert (E1 : count_occ string_dec l1 x = 0%nat)
      by (apply count_occ_not_In; intros Hin; apply Hx, in_or_app; auto).
    assert (E2 : count_occ string_dec l2 x = 0%nat)
      by (apply count_occ_not_In; intros Hin; apply Hx, in_or_app; auto).
    rewrite E1, E2. reflexivity.
Qed.

(** C2 (code bug): on the summaries of the two files of the end-to-end
    test, the reducer's ranking orders the two messages of summed frequency
    1 by the iteration order of its map: the first-encountered order gives
    "User logged in" before "Low memory", another order Go may use gives
    "Low memory" first.  For every iteration order, the empty placeholder
    text is ranked as a message and listed. *)
Theorem analyzeTopFiveLogMessages_ties_and_placeholder :
  let las := [mkLogAnalysis 2 (mkLogSeverityFrequency 0 1 0 1)
                ["User logged in"; "Database error"; ""; ""; ""] [1; 1; 0; 0; 0] 0 0;
              mkLogAnalysis 2 (mkLogSeverityFrequency 0 0 1 1)
                ["Low memory"; "Database error"; ""; ""; ""] [1; 1; 0; 0; 0] 0 0] in
  let first_seen := ["User logged in"; "Database error"; ""; "Low memory"] in
  let other := ["Low memory"; "Database error"; ""; "User logged in"] in
  iteration_order (rank_pure las) first_seen /\
  analyzeTopFiveLogMessages first_seen las =
    Ok ["Database error"; "User logged in"; "Low memory"; ""] /\
  iteration_order (rank_pure las) other /\
  analyzeTopFiveLogMessages other las =
    Ok ["Database error"; "Low memory"; "User logged in"; ""] /\
  (forall ord, iteration_order (rank_pure las) ord ->
     exists out, analyzeTopFiveLogMessages ord las = Ok out /\ In "" out).
Proof.
  intros las first_seen other. unfold iteration_order.
  split; [apply perm_bool_sound; vm_compute; reflexivity|].
  split; [vm_compute; reflexivity|].
  split; [apply perm_bool_sound; vm_compute; reflexivity|].
  split; [vm_compute; reflexivity|].
  intros ord Hord.
  exists (firstn 5 (sort_stable (count_less (map_get (rank_pure las))) ord)).
  split; [apply analyzeTopFive_spec; vm_compute; reflexivity|].
  rewrite firstn_all2.
  - apply (Permutation_in _ (Permutation_sym (sort_stable_perm _ _))).
    apply (Permutation_in _ Hord). vm_compute. right; right; left; reflexivity.
  - rewrite (Permutation_length (sort_stable_perm _ _)), <- (Permutation_length Hord).
    vm_compute. lia.
Qed.

(* ------------------------------------------------------------------ *)
(** ** The reducer *)

Lemma analyzelogAnalyses_spec (ord : list string) (la0 : LogAnalysis) (r : list LogAnalysis) :
  forallb slots_wf (la0 :: r) = true ->
  analyzelogAnalyses ord (la0 :: r) =
  Ok (fold_left reduce_step (la0 :: r)
        (mkLogAnalysis 0 zeroSeverity
           (firstn 5 (sort_stable (count_less (map_get (rank_pure (la0 :: r)))) ord))
           [] (startTime la0) (endTime la0))).
Proof.
  intros Hwf. unfold analyzelogAnalyses. rewrite (analyzeTopFive_spec _ _ Hwf).
  unfold obind. cbv zeta. rewrite take_five, firstn_firstn. reflexivity.
Qed.

Lemma analyzelogAnalyses_unranked (ord : list string) (las : list LogAnalysis) :
  las <> [] -> forallb slots_wf las = false ->
  analyzelogAnalyses ord las = Panic "index out of range".
Proof.
  intros Hne Hwf. destruct las as [|la0 r]; [congruence|].
  unfold analyzelogAnalyses, analyzeTopFiveLogMessages. rewrite rank_slots_spec, Hwf.
  reflexivity.
Qed.

Lemma forallb_perm {A} (f : A -> bool) (l1 l2 : list A) :
  Permutation l1 l2 -> forallb f l1 = forallb f l2.
Proof.
  intros Hp. destruct (forallb f l1) eqn:E1; destruct (forallb f l2) eqn:E2; auto.
  - rewrite forallb_forall in E1. apply Bool.not_true_iff_false in E2. exfalso; apply E2.
    apply forallb_forall. intros x Hx. apply E1. exact (Permutation_in _ (Permutation_sym Hp) Hx).
  - rewrite forallb_forall in E2. apply Bool.not_true_iff_false in E1. exfalso; apply E1.
    apply forallb_forall. intros x Hx. apply E2. exact (Permutation_in _ Hp Hx).
Qed.

(** the reducer's result does not depend on the order of its input *)
Lemma analyzelogAnalyses_perm (ord : list string) (l1 l2 : list LogAnalysis) :
  Permutation l1 l2 -> analyzelogAnalyses ord l1 = analyzelogAnalyses ord l2.
Proof.
  intros Hp.
  destruct l1 as [|a1 r1]; [apply Permutation_nil in Hp; subst; reflexivity|].
  destruct l2 as [|a2 r2]; [apply Permutation_sym, Permutation_nil in Hp; discriminate|].
  pose proof (forallb_perm slots_wf _ _ Hp) as Hwf.
  destruct (forallb slots_wf (a1 :: r1)) eqn:E1.
  2:{ rewrite !analyzelogAnalyses_unranked; congruence. }
  rewrite (analyzelogAnalyses_spec _ _ _ E1), (analyzelogAnalyses_spec _ _ _ (eq_sym Hwf)).
  f_equal. rewrite !fold_reduce_step.
  cbn [numEntries logSeverityFrequency debug info warning error zeroSeverity
       topFiveLogMessages topFiveLogMessageFrequencies startTime endTime].
  assert (Hsum : forall (g : LogAnalysis -> Z),
            fold_left add64 (map g (a1 :: r1)) 0 = fold_left add64 (map g (a2 :: r2)) 0).
  { intros g. apply fold_left_perm; [apply add64_right_comm|]. now apply Permutation_map. }
  f_equal; try apply Hsum.
  - f_equal; apply Hsum.
  - f_equal. apply sort_stable_ext. intros x y. unfold count_less.
    rewrite !rank_pure_get, (total_perm x _ _ Hp), (total_perm y _ _ Hp). reflexivity.
  - apply (is_min_unique _ _ (map startTime (a1 :: r1)) (map startTime (a2 :: r2)));
      [now apply Permutation_map| |]; apply fold_min_is_min; left; reflexivity.
  - apply (is_max_unique _ _ (map endTime (a1 :: r1)) (map endTime (a2 :: r2)));
      [now apply Permutation_map| |]; apply fold_max_is_max; left; reflexivity.
Qed.

(* ------------------------------------------------------------------ *)
(** ** Collecting the goroutines' results *)

Lemma collect_from_panic (files : list (option string)) (ords : list (list string))
    (arr : list nat) (msg : string) :
  fold_left (fun acc i => las <- acc ;; la <- task files ords i ;; Ok (las ++ [la]))
            arr (Panic msg) = Panic msg.
Proof. induction arr; simpl; auto. Qed.

Lemma collect_from (files : list (option string)) (ords : list (list string))
    (arr : list nat) (acc : list LogAnalysis) :
  let r := fold_left (fun acc i => las <- acc ;; la <- task files ords i ;; Ok (las ++ [la]))
                     arr (Ok acc) in
  (forallb (fun i => is_ok (task files ords i)) arr = true ->
     r = Ok (acc ++ map (delivered files ords) arr)) /\
  (forallb (fun i => is_ok (task files ords i)) arr = false -> exists msg, r = Panic msg).
Proof.
  revert acc; induction arr as [|i arr IH]; intros acc; simpl.
  - split; [intros _; now rewrite app_nil_r|discriminate].
  - unfold delivered at 1. destruct (task files ords i) as [la|msg]; simpl.
    + destruct (IH (acc ++ [la])) as [H1 H2]. split.
      * intros H. rewrite (H1 H). now rewrite <- app_assoc.
      * exact H2.
    + split; [discriminate|]. intros _. exists msg. apply collect_from_panic.
Qed.

Lemma collect_spec (files : list (option string)) (ords : list (list string)) (arr : list nat) :
  (forallb (fun i => is_ok (task files ords i)) arr = true ->
     collect files ords arr = Ok (map (delivered files ords) arr)) /\
  (forallb (fun i => is_ok (task files ords i)) arr = false ->
     exists msg, collect files ords arr = Panic msg).
Proof. exact (collect_from files ords arr []). Qed.

(** C5: the summary produced by [analyzeLogFiles] is the same whatever
    order the goroutines deliver their results in: for any two arrival
    orders and the same map iteration orders, a run that produces a
    summary produces the same summary under the other arrival order, a run
    panics under one order exactly when it panics under the other, and the
    reducer's map has the same keys (so the same iteration orders are
    possible) in both runs. *)
Theorem analyzeLogFiles_arrival_independent
    (files : list (option string)) (ords : list (list string)) (gord : list string)
    (arr1 arr2 : list nat) :
  arrival_order (List.length files) arr1 -> arrival_order (List.length files) arr2 ->
  (forall g, analyzeLogFiles files ords arr1 gord = Ok g ->
             analyzeLogFiles files ords arr2 gord = Ok g) /\
  ((exists msg, analyzeLogFiles files ords arr1 gord = Panic msg) <->
   (exists msg, analyzeLogFiles files ords arr2 gord = Panic msg)) /\
  (forall las1 las2, collect files ords arr1 = Ok las1 -> collect files ords arr2 = Ok las2 ->
     Permutation (map_keys (rank_pure las1)) (map_keys (rank_pure las2))).
Proof.
  intros H1 H2.
  assert (Hp : Permutation arr1 arr2) by (rewrite H1; symmetry; exact H2).
  pose proof (forallb_perm (fun i => is_ok (task files ords i)) _ _ Hp) as Hok.
  destruct (collect_spec files ords arr1) as [A1 B1].
  destruct (collect_spec files ords arr2) as [A2 B2].
  destruct (forallb (fun i => is_ok (task files ords i)) arr1) eqn:E1.
  - assert (Hl : Permutation (map (delivered files ords) arr1) (map (delivered files ords) arr2))
      by (now apply Permutation_map).
    unfold analyzeLogFiles. rewrite (A1 eq_refl), (A2 (eq_sym Hok)). simpl.
    rewrite (analyzelogAnalyses_perm gord _ _ Hl).
    split; [auto|]. split; [tauto|].
    intros las1 las2 E1' E2'.
    injection E1' as <-. injection E2' as <-.
    now apply rank_pure_keys_perm.
  - destruct (B1 eq_refl) as [m1 Hm1]. destruct (B2 (eq_sym Hok)) as [m2 Hm2].
    unfold analyzeLogFiles. rewrite Hm1, Hm2. simpl.
    split; [discriminate|]. split; [split; intros _; eexists; reflexivity|].
    intros las1 las2 E. discriminate.
Qed.

Lemma analyzeLogFiles_arrival_independent_witness :
  let files := [Some "2024-01-01 00:00:00.000 | INFO | m: f: 1 - a"; None] in
  let ords := [["a"]; []] in
  arrival_order 2 [0; 1]%nat /\ arrival_order 2 [1; 0]%nat /\
  (forall g, analyzeLogFiles files ords [0; 1]%nat [""; "a"] = Ok g ->
             analyzeLogFiles files ords [1; 0]%nat [""; "a"] = Ok g).
Proof.
  intros files ords.
  assert (H1 : arrival_order 2 [0; 1]%nat) by apply Permutation_refl.
  assert (H2 : arrival_order 2 [1; 0]%nat) by apply perm_swap.
  split; [exact H1|]. split; [exact H2|].
  exact (proj1 (analyzeLogFiles_arrival_independent files ords [""; "a"] _ _ H1 H2)).
Defined.

(* ------------------------------------------------------------------ *)
(** ** Shape of the per-file summaries *)

Lemma set_nth_length {A} (i : nat) (v : A) (xs : list A) :
  List.length (set_nth i v xs) = List.length xs.
Proof.
  revert i; induction xs as [|x xs IH]; intros [|i]; simpl; auto.
Qed.

Lemma getTopFive_lengths (ord : list string) (lms : list LogMessage) :
  List.length (fst (getTopFiveLogMessages ord lms)) = 5%nat /\
  List.length (snd (getTopFiveLogMessages ord lms)) = 5%nat.
Proof.
  unfold getTopFiveLogMessages. cbv zeta.
  destruct (sort_stable _ _) as [|m ms]; [split; reflexivity|].
  match goal with |- context [fold_left ?F _ _] =>
    assert (Hg : forall idx acc,
              List.length (fst acc) = 5%nat /\ List.length (snd acc) = 5%nat ->
              List.length (fst (fold_left F idx acc)) = 5%nat /\
              List.length (snd (fold_left F idx acc)) = 5%nat) end.
  { intros idx; induction idx as [|i idx IH]; intros [t f] H; simpl; [exact H|].
    apply IH. simpl. rewrite !set_nth_length. exact H. }
  apply Hg. split; reflexivity.
Qed.

Lemma analyzeLogFile_lengths (file : option string) (ord : list string) (la : LogAnalysis) :
  analyzeLogFile file ord = Ok la ->
  List.length (topFiveLogMessages la) = 5%nat /\
  List.length (topFiveLogMessageFrequencies la) = 5%nat.
Proof.
  unfold analyzeLogFile.
  pose proof (getTopFive_lengths ord (parseLogFile file)) as Hl.
  destruct (getTopFiveLogMessages ord (parseLogFile file)) as [tops freqs].
  destruct (getStartTime _); simpl; [|discriminate].
  destruct (getEndTime _); simpl; [|discriminate].
  intros H. injection H as <-. exact Hl.
Qed.

Lemma analyzeLogFile_slots_wf (file : option string) (ord : list string) (la : LogAnalysis) :
  analyzeLogFile file ord = Ok la -> slots_wf la = true.
Proof.
  intros H. destruct (analyzeLogFile_lengths _ _ _ H) as [H1 H2].
  unfold slots_wf, slot_count. rewrite H1, H2. reflexivity.
Qed.

(** C9: the reducer panics with "No analysis found" on an empty list, and
    on a non-empty list of summaries produced by [analyzeLogFile] it returns
    a summary. *)
Theorem analyzelogAnalyses_panics_iff_empty (ord : list string) (las : list LogAnalysis) :
  Forall (fun la => exists file o, analyzeLogFile file o = Ok la) las ->
  (las = [] -> analyzelogAnalyses ord las = Panic "No analysis found") /\
  (las <> [] -> exists g, analyzelogAnalyses ord las = Ok g).
Proof.
  intros Hsum. split; [intros ->; reflexivity|].
  intros Hne. destruct las as [|la0 r]; [congruence|].
  assert (Hwf : forallb slots_wf (la0 :: r) = true).
  { apply forallb_forall. intros la Hla. rewrite Forall_forall in Hsum.
    destruct (Hsum la Hla) as (file & o & H). exact (analyzeLogFile_slots_wf _ _ _ H). }
  rewrite (analyzelogAnalyses_spec ord la0 r Hwf). eexists; reflexivity.
Qed.

Lemma analyzelogAnalyses_panics_iff_empty_witness :
  let la := mkLogAnalysis 0 zeroSeverity (repeat "" 5) (repeat 0 5) zeroTime zeroTime in
  analyzeLogFile None [] = Ok la /\
  analyzelogAnalyses [] [] = Panic "No analysis found" /\
  exists g, analyzelogAnalyses [""] [la] = Ok g.
Proof.
  intros la.
  assert (Hla : analyzeLogFile None [] = Ok la) by reflexivity.
  assert (Hs : Forall (fun la => exists file o, analyzeLogFile file o = Ok la) [la])
    by (constructor; [exists None, []; exact Hla | constructor]).
  assert (Hn : Forall (fun la => exists file o, analyzeLogFile file o = Ok la) (@nil LogAnalysis))
    by constructor.
  split; [exact Hla|]. split.
  - exact (proj1 (analyzelogAnalyses_panics_iff_empty [] [] Hn) eq_refl).
  - apply (proj2 (analyzelogAnalyses_panics_iff_empty [""] [la] Hs)). discriminate.
Defined.

(* ------------------------------------------------------------------ *)
(** ** Start and end time of the reduced summary *)

Lemma ok_inj {A} (a b : A) : Ok a = Ok b -> a = b.
Proof. congruence. Qed.

(** C4 (amended): when the reducer returns a summary, its start time is the
    minimum of the start times of all the summaries it was given -- those of
    empty, unparsable or unreadable files, whose start time is the zero
    instant, included -- and its end time the maximum of all their end times;
    every permutation of the input gives the same start and end time.  A
    summary with the zero start time makes the global start time at most the
    zero instant, and equal to it when no summary starts before it. *)
Theorem analyzelogAnalyses_start_end (ord : list string) (las : list LogAnalysis) (g : LogAnalysis) :
  analyzelogAnalyses ord las = Ok g ->
  is_min (startTime g) (map startTime las) /\ is_max (endTime g) (map endTime las) /\
  (forall las', Permutation las las' ->
     exists g', analyzelogAnalyses ord las' = Ok g' /\
                startTime g' = startTime g /\ endTime g' = endTime g) /\
  ((exists la, In la las /\ startTime la = zeroTime) ->
     startTime g <= zeroTime /\
     ((forall la, In la las -> zeroTime <= startTime la) -> startTime g = zeroTime)).
Proof.
  intros H.
  assert (Hmin : is_min (startTime g) (map startTime las)).
  { destruct las as [|la0 r]; [discriminate|].
    assert (Hne : la0 :: r <> []) by discriminate.
    destruct (forallb slots_wf (la0 :: r)) eqn:Hwf;
      [|rewrite (analyzelogAnalyses_unranked ord _ Hne Hwf) in H; discriminate].
    rewrite (analyzelogAnalyses_spec ord la0 r Hwf) in H. apply ok_inj in H. subst g.
    rewrite fold_reduce_step.
    exact (fold_min_is_min (map startTime (la0 :: r)) (startTime la0) (or_introl eq_refl)). }
  split; [exact Hmin|]. split; [|split].
  - destruct las as [|la0 r]; [discriminate|].
    assert (Hne : la0 :: r <> []) by discriminate.
    destruct (forallb slots_wf (la0 :: r)) eqn:Hwf;
      [|rewrite (analyzelogAnalyses_unranked ord _ Hne Hwf) in H; discriminate].
    rewrite (analyzelogAnalyses_spec ord la0 r Hwf) in H. apply ok_inj in H. subst g.
    rewrite fold_reduce_step.
    exact (fold_max_is_max (map endTime (la0 :: r)) (endTime la0) (or_introl eq_refl)).
  - intros las' Hp. exists g. rewrite <- (analyzelogAnalyses_perm ord _ _ Hp). auto.
  - intros (la & Hla & Hz). destruct Hmin as [Hin Hle].
    assert (H0 : startTime g <= zeroTime) by (rewrite <- Hz; apply Hle, in_map, Hla).
    split; [exact H0|]. intros Hall. apply Z.le_antisymm; [exact H0|].
    apply in_map_iff in Hin as (la' & <- & Hla'). apply Hall. exact Hla'.
Qed.

Lemma analyzelogAnalyses_start_end_witness :
  let las := [mkLogAnalysis 1 (mkLogSeverityFrequency 0 1 0 0)
                ["a"; ""; ""; ""; ""] [1; 0; 0; 0; 0] 50 70;
              mkLogAnalysis 1 (mkLogSeverityFrequency 0 1 0 0)
                ["a"; ""; ""; ""; ""] [1; 0; 0; 0; 0] 20 60;
              emptyLogAnalysis] in
  exists g, analyzelogAnalyses ["a"; ""] las = Ok g /\
    is_min (startTime g) [50; 20; 0] /\ is_max (endTime g) [70; 60; 0] /\
    startTime g = zeroTime /\ endTime g = 70.
Proof.
  intros las. eexists. split; [vm_compute; reflexivity|].
  destruct (analyzelogAnalyses_start_end ["a"; ""] las _ (eq_refl _)) as (H1 & H2 & _ & H4).
  split; [exact H1|]. split; [exact H2|]. split; [|reflexivity].
  apply (proj2 (H4 (ex_intro _ emptyLogAnalysis (conj (or_intror (or_intror (or_introl eq_refl))) eq_refl)))).
  intros la [<-|[<-|[<-|[]]]]; vm_compute; discriminate.
Defined.

(* ------------------------------------------------------------------ *)
(** ** Empty, unparsable and unreadable files *)

Lemma parse_fold_unusable (ls : list string) (acc : list LogMessage) :
  Forall (fun l => snd (parseLogMessage l) <> None) ls ->
  fold_left (fun acc logRow =>
               match parseLogMessage logRow with
               | (lm, None) => acc ++ [lm]
               | (_, Some _) => acc
               end) ls acc = acc.
Proof.
  intros H; revert acc; induction H as [|l ls Hl _ IH]; intros acc; simpl; [reflexivity|].
  destruct (parseLogMessage l) as [lm [e|]]; simpl in Hl; [apply IH|congruence].
Qed.

Lemma parseLogFile_unusable (file : option string) :
  unusable_file file -> parseLogFile file = [].
Proof.
  destruct file as [data|]; simpl; [|reflexivity]. apply parse_fold_unusable.
Qed.

(** C6: an empty, fully unparsable or unreadable file gives the summary
    with no entries, zero severity counts, five empty message slots of
    frequency 0 and zero start and end times; its goroutine does not panic,
    and whenever the goroutines' results are collected this summary is one
    of them. *)
Theorem analyzeLogFile_unusable_empty (files : list (option string))
    (ords : list (list string)) (i : nat) :
  valid_orders files ords -> (i < List.length files)%nat -> unusable_file (nth i files None) ->
  task files ords i = Ok emptyLogAnalysis /\
  (forall arr las, arrival_order (List.length files) arr ->
     collect files ords arr = Ok las -> In emptyLogAnalysis las).
Proof.
  intros Hord Hi Hbad.
  assert (Ht : task files ords i = Ok emptyLogAnalysis).
  { pose proof (Hord i) as Hoi. unfold task, analyzeLogFile in *.
    rewrite (parseLogFile_unusable _ Hbad) in *.
    unfold iteration_order in Hoi. simpl in Hoi. apply Permutation_nil in Hoi.
    rewrite Hoi. reflexivity. }
  split; [exact Ht|].
  intros arr las Harr Hc.
  destruct (collect_spec files ords arr) as [A B].
  destruct (forallb (fun i => is_ok (task files ords i)) arr) eqn:E.
  - rewrite (A eq_refl) in Hc. apply ok_inj in Hc. subst las.
    replace emptyLogAnalysis with (delivered files ords i)
      by (unfold delivered; rewrite Ht; reflexivity).
    apply in_map. apply (Permutation_in _ (Permutation_sym Harr)). apply in_seq. lia.
  - destruct (B eq_refl) as [msg Hm]. congruence.
Qed.

Lemma analyzeLogFile_unusable_empty_witness :
  task [None; Some ""] [[]; []] 0 = Ok emptyLogAnalysis /\
  task [None; Some ""] [[]; []] 1 = Ok emptyLogAnalysis.
Proof.
  assert (Hv : valid_orders [None; Some ""] [[]; []]).
  { intros [|[|k]]; [apply Permutation_refl|vm_compute; apply Permutation_refl|].
    destruct k; apply Permutation_refl. }
  assert (H1 : unusable_file (nth 1 [None; Some ""] None)).
  { simpl. apply Forall_forall. intros l Hl. vm_compute in Hl.
    destruct Hl as [<-|[]]. vm_compute. discriminate. }
  split.
  - exact (proj1 (analyzeLogFile_unusable_empty _ _ 0 Hv ltac:(simpl; lia) I)).
  - exact (proj1 (analyzeLogFile_unusable_empty _ _ 1 Hv ltac:(simpl; lia) H1)).
Defined.

(* ------------------------------------------------------------------ *)
(** ** The end-to-end case of [TestAnalyzeLogFiles] *)

Lemma sort_head_unique_max (c : string -> Z) (l : list string) (k : string) :
  In k l -> (forall x, In x l -> x <> k -> c x < c k) ->
  hd "" (firstn 5 (sort_stable (count_less c) l)) = k.
Proof.
  intros Hk Hmax.
  pose proof (sort_stable_perm (count_less c) l) as Hp.
  pose proof (sort_strongly_sorted c l) as Hs.
  destruct (sort_stable (count_less c) l) as [|h t].
  - apply Permutation_nil in Hp. subst l. destruct Hk.
  - simpl. destruct (string_dec h k) as [->|Hne]; [reflexivity|]. exfalso.
    apply StronglySorted_inv in Hs as [_ Hf].
    assert (Hkt : In k t).
    { apply (Permutation_in _ (Permutation_sym Hp)) in Hk.
      destruct Hk as [->|Hk]; [congruence|exact Hk]. }
    rewrite Forall_forall in Hf. specialize (Hf k Hkt). unfold count_desc in Hf.
    assert (Hh : In h l) by (apply (Permutation_in _ Hp); left; reflexivity).
    specialize (Hmax h Hh Hne). lia.
Qed.

Lemma perm_two_inv {A} (a b : A) (l : list A) : Permutation l [a; b] -> l = [a; b] \/ l = [b; a].
Proof. intros H. apply Permutation_sym, Permutation_length_2_inv in H. exact H. Qed.

Lemma reduce_no_frequencies (ord : list string) (las : list LogAnalysis) (g : LogAnalysis) :
  analyzelogAnalyses ord las = Ok g -> topFiveLogMessageFrequencies g = [].
Proof.
  intros H. destruct las as [|la0 r]; [discriminate|].
  assert (Hne : la0 :: r <> []) by discriminate.
  destruct (forallb slots_wf (la0 :: r)) eqn:Hwf;
    [|rewrite (analyzelogAnalyses_unranked ord _ Hne Hwf) in H; discriminate].
  rewrite (analyzelogAnalyses_spec ord la0 r Hwf) in H. apply ok_inj in H. subst g.
  rewrite fold_reduce_step. reflexivity.
Qed.

Ltac scenario_case :=
  match goal with
  | Hg : forall las, ?C = Ok las -> _ |- _ =>
      let v := eval vm_compute in C in
      assert (HC : C = v) by (vm_compute; reflexivity);
      specialize (Hg _ HC); unfold iteration_order in Hg; vm_compute in Hg;
      unfold analyzeLogFiles; rewrite HC; unfold obind;
      rewrite analyzelogAnalyses_spec by (vm_compute; reflexivity);
      eexists; split; [reflexivity|];
      rewrite fold_reduce_step;
      split; [vm_compute; reflexivity|]; split; [vm_compute; reflexivity|];
      split; [|split; [reflexivity|intros las Hl; apply ok_inj in Hl;
                       subst las; vm_compute; reflexivity]];
      cbn [topFiveLogMessages];
      apply sort_head_unique_max;
        [apply (Permutation_in _ Hg); repeat (solve [left; reflexivity] || right)
        |intros x Hx Hne; apply (Permutation_in _ (Permutation_sym Hg)) in Hx;
         repeat destruct Hx as [<-|Hx];
         solve [congruence | vm_compute; reflexivity | destruct Hx]]
  end.

(** C7 (amended): the reducer's summary keeps the top message texts but
    not their frequencies, whose list is left empty.  In the test's two-file
    case, for every iteration order of the maps and every order in which the
    two results arrive, the run returns a summary with 4 entries, severity
    counts {debug 0, info 1, warning 1, error 2}, top message
    "Database error" and an empty frequency list; the frequency 2 of
    "Database error" is only the reducer's internal sum. *)
Theorem analyzeLogFiles_test_scenario (ordA ordB : list string) (arr : list nat)
    (gord : list string) :
  iteration_order (count_messages (parseLogFile (Some log1Content))) ordA ->
  iteration_order (count_messages (parseLogFile (Some log2Content))) ordB ->
  arrival_order 2 arr ->
  (forall las, collect test_files [ordA; ordB] arr = Ok las -> iteration_order (rank_pure las) gord) ->
  (forall ord las g, analyzelogAnalyses ord las = Ok g -> topFiveLogMessageFrequencies g = []) /\
  exists g, analyzeLogFiles test_files [ordA; ordB] arr gord = Ok g /\
    numEntries g = 4 /\ logSeverityFrequency g = mkLogSeverityFrequency 0 1 1 2 /\
    hd "" (topFiveLogMessages g) = "Database error" /\
    topFiveLogMessageFrequencies g = [] /\
    (forall las, collect test_files [ordA; ordB] arr = Ok las ->
       map_get (rank_pure las) "Database error" = 2).
Proof.
  intros HA HB Harr Hg. split; [exact reduce_no_frequencies|].
  unfold iteration_order in HA, HB. vm_compute in HA, HB.
  apply Permutation_sym, perm_two_inv in HA as [-> | ->];
  apply Permutation_sym, perm_two_inv in HB as [-> | ->];
  unfold arrival_order in Harr; simpl in Harr;
  apply perm_two_inv in Harr as [-> | ->]; scenario_case.
Qed.

Lemma analyzeLogFiles_test_scenario_witness :
  exists g, analyzeLogFiles test_files [["User logged in"; "Database error"]; ["Low memory"; "Database error"]]
              [1; 0]%nat ["Low memory"; "Database error"; ""; "User logged in"] = Ok g /\
    numEntries g = 4 /\ hd "" (topFiveLogMessages g) = "Database error".
Proof.
  destruct (analyzeLogFiles_test_scenario ["User logged in"; "Database error"]
              ["Low memory"; "Database error"] [1; 0]%nat
              ["Low memory"; "Database error"; ""; "User logged in"])
    as (_ & g & H1 & H2 & _ & H4 & _).
  - vm_compute. apply Permutation_refl.
  - vm_compute. apply Permutation_refl.
  - vm_compute. apply perm_swap.
  - intros las Hc. vm_compute in Hc. apply ok_inj in Hc. subst las.
    vm_compute. apply Permutation_refl.
  - exists g. auto.
Defined.

(** C7 counterexample: in the test's case the reducer's summary carries no
    frequency for its top messages. *)
Lemma analyzeLogFiles_test_no_frequencies :
  analyzeLogFiles test_files [["User logged in"; "Database error"]; ["Low memory"; "Database error"]]
    [0; 1]%nat ["User logged in"; "Database error"; ""; "Low memory"] =
  Ok (mkLogAnalysis 4 (mkLogSeverityFrequency 0 1 1 2)
        ["Database error"; "User logged in"; "Low memory"; ""] []
        (date_instant 2024 1 1 0 0 0 0) (date_instant 2024 1 1 0 3 0 0)).
Proof. vm_compute. reflexivity. Qed.

(** C4 counterexample: the zero start time of an unreadable file's summary
    becomes the start time of the reduced summary. *)
Lemma analyzelogAnalyses_start_includes_unreadable :
  exists laA g,
    analyzeLogFile (Some log1Content) ["User logged in"; "Database error"] = Ok laA /\
    analyzeLogFile None [] = Ok emptyLogAnalysis /\
    analyzelogAnalyses ["User logged in"; "Database error"; ""] [laA; emptyLogAnalysis] = Ok g /\
    startTime laA = date_instant 2024 1 1 0 0 0 0 /\
    startTime g = zeroTime /\ startTime g <> startTime laA.
Proof.
  do 2 eexists. split; [vm_compute; reflexivity|]. split; [reflexivity|].
  split; [vm_compute; reflexivity|]. split; [vm_compute; reflexivity|].
  split; [vm_compute; reflexivity|]. vm_compute. discriminate.
Qed.

(* ------------------------------------------------------------------ *)
(** ** Splitting and trimming never introduce a byte *)

Lemma split_char_length (c : ascii) (s : string) :
  List.length (split_char c s) = S (count_char c s).
Proof.
  induction s as [|a s IH]; simpl; [reflexivity|].
  destruct (Ascii.eqb a c); simpl; [now rewrite IH|].
  destruct (split_char c s); simpl in *; [discriminate|exact IH].
Qed.

Lemma contains_app (c : ascii) (a b : string) :
  contains_char c (a ++ b) = contains_char c a || contains_char c b.
Proof. induction a as [|x a IH]; simpl; [reflexivity|]. now rewrite IH, orb_assoc. Qed.

Lemma split_char_sub (d c : ascii) (s x : string) :
  In x (split_char d s) -> contains_char c x = true -> contains_char c s = true.
Proof.
  revert x; induction s as [|a s IH]; intros x Hx Hc; simpl in *.
  - destruct Hx as [<-|[]]; discriminate.
  - destruct (Ascii.eqb a d).
    + destruct Hx as [<-|Hx]; [discriminate|]. rewrite (IH x Hx Hc). apply orb_true_r.
    + destruct (split_char d s) as [|h t] eqn:E.
      * destruct Hx as [<-|[]]. simpl in Hc. rewrite orb_false_r in Hc. now rewrite Hc.
      * destruct Hx as [<-|Hx].
        -- simpl in Hc. apply orb_true_iff in Hc as [Hc|Hc]; [now rewrite Hc|].
           rewrite (IH h (or_introl eq_refl) Hc). apply orb_true_r.
        -- rewrite (IH x (or_intror Hx) Hc). apply orb_true_r.
Qed.

Lemma split_char_no_sep (d : ascii) (s x : string) :
  In x (split_char d s) -> contains_char d x = false.
Proof.
  revert x; induction s as [|a s IH]; intros x Hx; simpl in *.
  - destruct Hx as [<-|[]]; reflexivity.
  - destruct (Ascii.eqb a d) eqn:Ea.
    + destruct Hx as [<-|Hx]; [reflexivity|]. exact (IH x Hx).
    + destruct (split_char d s) as [|h t] eqn:E.
      * destruct Hx as [<-|[]]. simpl. now rewrite Ea.
      * destruct Hx as [<-|Hx].
        -- simpl. rewrite Ea. exact (IH h (or_introl eq_refl)).
        -- exact (IH x (or_intror Hx)).
Qed.

Lemma no_char_nth_split (d c : ascii) (s : string) (i : nat) :
  d = c \/ contains_char c s = false -> contains_char c (nth i (split_char d s) "") = false.
Proof.
  intros H. destruct (Nat.lt_ge_cases i (List.length (split_char d s))) as [Hi|Hi].
  - pose proof (nth_In _ "" Hi) as Hin. destruct H as [<-|H].
    + exact (split_char_no_sep d s _ Hin).
    + destruct (contains_char c (nth i (split_char d s) "")) eqn:E; [|reflexivity].
      rewrite (split_char_sub d c s _ Hin E) in H. discriminate.
  - rewrite nth_overflow by exact Hi. reflexivity.
Qed.

Lemma trim_left_fuel_suffix (n : nat) (s : string) :
  exists p, s = (p ++ trim_left_fuel n s)%string.
Proof.
  revert s; induction n as [|n IH]; intros s; simpl; [exists ""; reflexivity|].
  destruct (strip_space_prefix s) as [s'|] eqn:E; [|exists ""; reflexivity].
  unfold strip_space_prefix in E. apply first_some_some in E as (q & _ & Hq).
  apply strip_prefix_some in Hq. destruct (IH s') as [p Hp].
  exists (q ++ p)%string. rewrite <- sapp_assoc, <- Hp. exact Hq.
Qed.

Lemma TrimSpace_sub (c : ascii) (s : string) :
  contains_char c (TrimSpace s) = true -> contains_char c s = true.
Proof.
  intros H. unfold TrimSpace in H. set (l := trim_left_fuel (String.length s) s) in H.
  destruct (trim_left_fuel_suffix (String.length s) s) as [p Hp]. fold l in Hp.
  destruct (trim_right_fuel_prefix (String.length l) l) as [x Hx].
  rewrite Hp, contains_app. rewrite Hx, contains_app, H. simpl. apply orb_true_r.
Qed.

Lemma TrimSpace_no_char (c : ascii) (s : string) :
  contains_char c s = false -> contains_char c (TrimSpace s) = false.
Proof.
  intros H. destruct (contains_char c (TrimSpace s)) eqn:E; [|reflexivity].
  rewrite (TrimSpace_sub c s E) in H. discriminate.
Qed.

Ltac no_char :=
  repeat first [ apply TrimSpace_no_char
               | apply no_char_nth_split; first [left; reflexivity | right] ].

Lemma wrap64_small (x : Z) : -2 ^ 63 <= x < 2 ^ 63 -> wrap64 x = x.
Proof. intros H. unfold wrap64. rewrite Z.mod_small; lia. Qed.

Lemma ParseInt16_range (s : string) (n : Z) :
  ParseInt s 0 16 = (n, None) -> -32768 <= n <= 32767.
Proof.
  unfold ParseInt. destruct s as [|c r]; [discriminate|].
  destruct (if (byte_of c =? 43)%N then _ else _) as [neg s'].
  destruct (ParseUint s' 0 16) as [un err].
  assert (Hun : 0 <= Z.of_N un) by lia.
  destruct err as [e|]; [destruct e|]; cbn; try discriminate;
    destruct neg; cbn;
    destruct (32768 <=? Z.of_N un) eqn:E1; cbn; try discriminate;
    try (destruct (32768 <? Z.of_N un) eqn:E2; cbn; try discriminate);
    intros H; injection H as <-;
    try apply Z.leb_gt in E1; try apply Z.ltb_ge in E2;
    repeat rewrite (wrap64_small (Z.of_N un)) by lia;
    try rewrite wrap64_small by lia; lia.
Qed.

Lemma parseLogMessage_ok_inv (logRow : string) (r : LogMessage) :
  parseLogMessage logRow = (r, None) ->
  let lp := split_char "|" logRow in
  let rp := split_char ":" (nth 2 lp "") in
  let mr := split_char "-" (nth 2 rp "") in
  TrimSpace (nth 1 lp "") <> "" /\
  ParseInt (TrimSpace (nth 0 mr "")) 0 16 = (lineNumber r, None) /\
  r = mkLogMessage (TrimSpace (nth 0 lp "")) (TrimSpace (nth 1 lp ""))
        (TrimSpace (nth 0 rp "")) (TrimSpace (nth 1 rp "")) (lineNumber r)
        (TrimSpace (nth 1 mr "")).
Proof.
  unfold parseLogMessage. cbv zeta.
  destruct (negb _); [discriminate|].
  destruct (String.eqb (TrimSpace (nth 1 (split_char "|" logRow) "")) "") eqn:Es;
    [discriminate|].
  destruct (_ <? 3)%nat; [discriminate|].
  destruct (_ <? 2)%nat; [discriminate|].
  destruct (ParseInt _ _ _) as [ln [e|]] eqn:Ep; [discriminate|].
  intros H. injection H as <-. simpl.
  split; [intros He; rewrite He in Es; discriminate|]. auto.
Qed.

(** X1: a line whose number of [|] bytes is not 2 is rejected with the
    error "Empty Message" and the zero record. *)
Theorem parseLogMessage_pipe_count (logRow : string) :
  count_char "|" logRow <> 2%nat ->
  parseLogMessage logRow = (zeroLogMessage, Some (ErrorsNew "Empty Message")).
Proof.
  intros Hc.
  assert (E : (List.length (split_char "|" logRow) =? 3)%nat = false)
    by (rewrite split_char_length; apply Nat.eqb_neq; lia).
  unfold parseLogMessage. cbv zeta. rewrite E. reflexivity.
Qed.

Lemma parseLogMessage_pipe_count_witness :
  count_char "|" "2024-01-02 15:04:05.999 | INFO" <> 2%nat /\
  parseLogMessage "2024-01-02 15:04:05.999 | INFO" =
    (zeroLogMessage, Some (ErrorsNew "Empty Message")).
Proof.
  assert (H : count_char "|" "2024-01-02 15:04:05.999 | INFO" <> 2%nat) by (vm_compute; discriminate).
  split; [exact H|]. exact (parseLogMessage_pipe_count _ H).
Defined.

(** X2: a record accepted by [parseLogMessage] has a non-empty severity, a
    line number in the signed 16-bit range, and a timestamp, severity and
    message that neither begin nor end with white space. *)
Theorem parseLogMessage_accepted_fields (logRow : string) (r : LogMessage) :
  parseLogMessage logRow = (r, None) ->
  severity r <> "" /\ -32768 <= lineNumber r <= 32767 /\
  ~ begins_with_space (timestamp r) /\ ~ ends_with_space (timestamp r) /\
  ~ begins_with_space (severity r) /\ ~ ends_with_space (severity r) /\
  ~ begins_with_space (message r) /\ ~ ends_with_space (message r).
Proof.
  intros H. destruct (parseLogMessage_ok_inv logRow r H) as (Hs & Hp & Hr).
  apply ParseInt16_range in Hp.
  rewrite Hr; cbn [timestamp severity message lineNumber].
  split; [exact Hs|]. split; [exact Hp|].
  repeat split; apply TrimSpace_trimmed.
Qed.

Lemma parseLogMessage_accepted_fields_witness :
  exists r, parseLogMessage "2024-01-02 15:04:05.999 | INFO | app.module: function: 123 - User logged in" = (r, None) /\
    severity r <> "" /\ -32768 <= lineNumber r <= 32767.
Proof.
  eexists. assert (H : parseLogMessage "2024-01-02 15:04:05.999 | INFO | app.module: function: 123 - User logged in" =
    (mkLogMessage "2024-01-02 15:04:05.999" "INFO" "app.module" "function" 123 "User logged in", None))
    by (vm_compute; reflexivity).
  split; [exact H|]. destruct (parseLogMessage_accepted_fields _ _ H) as (H1 & H2 & _). auto.
Defined.

(** X3: the fields of an accepted record contain none of the delimiters
    that were split on to reach them: no [|] in any field, no [:] in the
    module, function or message, and no [-] in the message. *)
Theorem parseLogMessage_accepted_no_delimiters (logRow : string) (r : LogMessage) :
  parseLogMessage logRow = (r, None) ->
  contains_char "|" (timestamp r) = false /\ contains_char "|" (severity r) = false /\
  contains_char "|" (module r) = false /\ contains_char ":" (module r) = false /\
  contains_char "|" (function r) = false /\ contains_char ":" (function r) = false /\
  contains_char "|" (message r) = false /\ contains_char ":" (message r) = false /\
  contains_char "-" (message r) = false.
Proof.
  intros H. destruct (parseLogMessage_ok_inv logRow r H) as (_ & _ & Hr).
  rewrite Hr; cbn [timestamp severity module function message].
  repeat split; no_char.
Qed.

Lemma parseLogMessage_accepted_no_delimiters_witness :
  exists r, parseLogMessage "2024-01-02 15:04:05.999 | INFO | app.module: function: 123 - User logged in" = (r, None) /\
    contains_char "-" (message r) = false.
Proof.
  eexists. assert (H : parseLogMessage "2024-01-02 15:04:05.999 | INFO | app.module: function: 123 - User logged in" =
    (mkLogMessage "2024-01-02 15:04:05.999" "INFO" "app.module" "function" 123 "User logged in", None))
    by (vm_compute; reflexivity).
  split; [exact H|]. exact (proj2 (proj2 (proj2 (proj2 (proj2 (proj2 (proj2 (proj2
    (parseLogMessage_accepted_no_delimiters _ _ H))))))))).
Defined.

(* ------------------------------------------------------------------ *)
(** ** [parseLogFile] *)

Lemma parse_fold_spec (ls : list string) (acc : list LogMessage) :
  fold_left (fun acc logRow =>
               match parseLogMessage logRow with
               | (lm, None) => acc ++ [lm]
               | (_, Some _) => acc
               end) ls acc =
  acc ++ map (fun l => fst (parseLogMessage l)) (filter line_accepted ls).
Proof.
  revert acc; induction ls as [|l ls IH]; intros acc; simpl; [now rewrite app_nil_r|].
  destruct (parseLogMessage l) as [lm [e|]] eqn:E;
    (assert (Ha : line_accepted l = match snd (parseLogMessage l) with None => true | Some _ => false end)
       by reflexivity); rewrite E in Ha; simpl in Ha; rewrite Ha, IH;
    [reflexivity|simpl; rewrite E; now rewrite <- app_assoc].
Qed.

(** X4: a readable file yields, in file order, the records of exactly the
    newline-separated lines that [parseLogMessage] accepts; there are at
    most as many records as lines, and no field of a record contains a
    newline. *)
Theorem parseLogFile_accepted_lines (data : string) :
  parseLogFile (Some data) =
    map (fun l => fst (parseLogMessage l)) (filter line_accepted (split_char "010" data)) /\
  (List.length (parseLogFile (Some data)) <= S (count_char "010" data))%nat /\
  (forall r, In r (parseLogFile (Some data)) ->
     contains_char "010" (timestamp r) = false /\ contains_char "010" (severity r) = false /\
     contains_char "010" (module r) = false /\ contains_char "010" (function r) = false /\
     contains_char "010" (message r) = false).
Proof.
  assert (Hp : parseLogFile (Some data) =
    map (fun l => fst (parseLogMessage l)) (filter line_accepted (split_char "010" data)))
    by (unfold parseLogFile; rewrite parse_fold_spec; reflexivity).
  split; [exact Hp|]. split.
  - rewrite Hp, length_map, <- split_char_length. apply filter_length_le.
  - intros r Hr. rewrite Hp in Hr. apply in_map_iff in Hr as (l & Hl & Hin).
    apply filter_In in Hin as [Hin Hacc].
    assert (Hnl : contains_char "010" l = false) by exact (split_char_no_sep _ _ _ Hin).
    assert (Hpl : parseLogMessage l = (r, None)).
    { unfold line_accepted in Hacc. rewrite <- Hl.
      destruct (parseLogMessage l) as [lm [e|]]; [discriminate|reflexivity]. }
    destruct (parseLogMessage_ok_inv l r Hpl) as (_ & _ & Hr).
    rewrite Hr; cbn [timestamp severity module function message].
    repeat split; no_char; exact Hnl.
Qed.

(* ------------------------------------------------------------------ *)
(** ** [getLogSeverityFrequency] *)

Lemma tally_fold (lms : list LogMessage) (f : LogSeverityFrequency) :
  wrap64 (debug f) = debug f -> wrap64 (info f) = info f ->
  wrap64 (warning f) = warning f -> wrap64 (error f) = error f ->
  fold_left tally lms f =
  mkLogSeverityFrequency (wrap64 (debug f + Z.of_nat (count_severity "DEBUG" lms)))
                         (wrap64 (info f + Z.of_nat (count_severity "INFO" lms)))
                         (wrap64 (warning f + Z.of_nat (count_severity "WARNING" lms)))
                         (wrap64 (error f + Z.of_nat (count_severity "ERROR" lms))).
Proof.
  revert f; induction lms as [|a lms IH]; intros [d i w e] Hd Hi Hw He; simpl in *.
  - rewrite !Z.add_0_r. congruence.
  - unfold count_severity in *; simpl.
    unfold tally; simpl.
    destruct (String.eqb_spec (severity a) "DEBUG") as [E|E];
      [try rewrite E; simpl; rewrite IH by (simpl; unfold add64; auto using wrap64_idem); simpl;
       unfold add64; rewrite !wrap64_add_l; f_equal; f_equal; lia|].
    destruct (String.eqb_spec (severity a) "INFO") as [E'|E'];
      [try rewrite E'; simpl; rewrite IH by (simpl; unfold add64; auto using wrap64_idem); simpl;
       unfold add64; rewrite !wrap64_add_l; f_equal; f_equal; lia|].
    destruct (String.eqb_spec (severity a) "WARNING") as [E''|E''];
      [try rewrite E''; simpl; rewrite IH by (simpl; unfold add64; auto using wrap64_idem); simpl;
       unfold add64; rewrite !wrap64_add_l; f_equal; f_equal; lia|].
    destruct (String.eqb_spec (severity a) "ERROR") as [E'''|E'''];
      [try rewrite E'''; simpl; rewrite IH by (simpl; unfold add64; auto using wrap64_idem); simpl;
       unfold add64; rewrite !wrap64_add_l; f_equal; f_equal; lia|].
    rewrite IH by (simpl; auto). reflexivity.
Qed.

Lemma count_severity_total (lms : list LogMessage) :
  (count_severity "DEBUG" lms + count_severity "INFO" lms + count_severity "WARNING" lms +
   count_severity "ERROR" lms + count_other_severity lms)%nat = List.length lms.
Proof.
  induction lms as [|a lms IH]; [reflexivity|].
  unfold count_severity, count_other_severity, known_severity in *; simpl.
  destruct (String.eqb_spec (severity a) "DEBUG") as [E|E]; [try rewrite E; simpl; lia|].
  destruct (String.eqb_spec (severity a) "INFO") as [E'|E']; [try rewrite E'; simpl; lia|].
  destruct (String.eqb_spec (severity a) "WARNING") as [E''|E'']; [try rewrite E''; simpl; lia|].
  destruct (String.eqb_spec (severity a) "ERROR") as [E'''|E''']; [try rewrite E'''; simpl; lia|].
  simpl. lia.
Qed.

(** X5: [getLogSeverityFrequency] counts the records whose severity is
    exactly "DEBUG", "INFO", "WARNING" or "ERROR" (as 64-bit integers); when
    there are fewer than 2^63 records, the four counts and the number of
    records with any other severity add up to [getNumEntries]. *)
Theorem getLogSeverityFrequency_counts (lms : list LogMessage) :
  getLogSeverityFrequency lms =
    mkLogSeverityFrequency (wrap64 (Z.of_nat (count_severity "DEBUG" lms)))
                           (wrap64 (Z.of_nat (count_severity "INFO" lms)))
                           (wrap64 (Z.of_nat (count_severity "WARNING" lms)))
                           (wrap64 (Z.of_nat (count_severity "ERROR" lms))) /\
  (Z.of_nat (List.length lms) < 2 ^ 63 ->
   let f := getLogSeverityFrequency lms in
   debug f + info f + warning f + error f + Z.of_nat (count_other_severity lms) =
   getNumEntries lms).
Proof.
  assert (H : getLogSeverityFrequency lms =
    mkLogSeverityFrequency (wrap64 (Z.of_nat (count_severity "DEBUG" lms)))
                           (wrap64 (Z.of_nat (count_severity "INFO" lms)))
                           (wrap64 (Z.of_nat (count_severity "WARNING" lms)))
                           (wrap64 (Z.of_nat (count_severity "ERROR" lms)))).
  { unfold getLogSeverityFrequency. rewrite tally_fold by reflexivity. reflexivity. }
  split; [exact H|]. intros Hl f. unfold f; rewrite H; cbn [debug info warning error].
  pose proof (count_severity_total lms) as Ht.
  unfold getNumEntries. rewrite <- Ht.
  rewrite !(wrap64_small (Z.of_nat _)) by lia. lia.
Qed.

Lemma getLogSeverityFrequency_counts_witness :
  let lms := [fst (parseLogMessage "2024-01-01 00:00:00.000 | INFO | m: f: 1 - a");
              fst (parseLogMessage "2024-01-01 00:00:00.000 | info | m: f: 2 - b")] in
  Z.of_nat (List.length lms) < 2 ^ 63 /\
  info (getLogSeverityFrequency lms) = 1 /\ Z.of_nat (count_other_severity lms) = 1.
Proof.
  intros lms. assert (Hl : Z.of_nat (List.length lms) < 2 ^ 63) by (vm_compute; reflexivity).
  split; [exact Hl|].
  pose proof (proj2 (getLogSeverityFrequency_counts lms) Hl) as H.
  split; vm_compute; reflexivity.
Defined.

(* ------------------------------------------------------------------ *)
(** ** The slots filled by [getTopFiveLogMessages] *)

Lemma firstn_S_nth {A} (l : list A) (j : nat) (d : A) :
  (j < List.length l)%nat -> firstn (S j) l = firstn j l ++ [nth j l d].
Proof.
  revert j; induction l as [|x l IH]; intros j Hj; simpl in *; [lia|].
  destruct j as [|j]; [reflexivity|]. simpl. rewrite (IH j) by lia. reflexivity.
Qed.

Lemma set_nth_app {A} (i : nat) (a r : list A) (x v : A) :
  List.length a = i -> set_nth i v (a ++ x :: r) = a ++ v :: r.
Proof.
  intros <-. induction a as [|y a IH]; simpl; [reflexivity|]. now rewrite IH.
Qed.

Lemma repeat_S_sub {A} (x : A) (j : nat) :
  (j < 5)%nat -> repeat x (5 - j) = x :: repeat x (5 - S j).
Proof. intros Hj. replace (5 - j)%nat with (S (5 - S j)) by lia. reflexivity. Qed.

Lemma firstn_min_length {A} (n : nat) (l : list A) :
  firstn (Nat.min n (List.length l)) l = firstn n l.
Proof.
  destruct (Nat.le_ge_cases n (List.length l)).
  - now rewrite Nat.min_l.
  - rewrite Nat.min_r by exact H. rewrite firstn_all, firstn_all2 by exact H. reflexivity.
Qed.

Lemma topfive_loop (ranked : gomap) (msgs : list string) (j m : nat) :
  (j + m <= List.length msgs)%nat -> (j + m <= 5)%nat ->
  fold_left (fun '(tops, freqs) index =>
               (set_nth index (nth index msgs "") tops,
                set_nth index (map_get ranked (nth index msgs "")) freqs))
            (seq j m)
            (firstn j msgs ++ repeat "" (5 - j),
             firstn j (map (map_get ranked) msgs) ++ repeat 0 (5 - j)) =
  (firstn (j + m) msgs ++ repeat "" (5 - (j + m)),
   firstn (j + m) (map (map_get ranked) msgs) ++ repeat 0 (5 - (j + m))).
Proof.
  revert j; induction m as [|m IH]; intros j H1 H2.
  - now rewrite Nat.add_0_r.
  - simpl.
    assert (Hj : (j < List.length msgs)%nat) by lia.
    assert (Hj' : (j < List.length (map (map_get ranked) msgs))%nat) by (rewrite length_map; lia).
    rewrite !(repeat_S_sub _ j) by lia.
    assert (La : List.length (firstn j msgs) = j) by (rewrite length_firstn; lia).
    assert (Lb : List.length (firstn j (map (map_get ranked) msgs)) = j)
      by (rewrite length_firstn, length_map; lia).
    rewrite (set_nth_app j (firstn j msgs)) by exact La.
    rewrite (set_nth_app j (firstn j (map (map_get ranked) msgs))) by exact Lb.
    replace (firstn j msgs ++ nth j msgs "" :: repeat "" (5 - S j))
      with (firstn (S j) msgs ++ repeat "" (5 - S j))
      by (rewrite (firstn_S_nth _ _ "") by exact Hj; now rewrite <- app_assoc).
    replace (firstn j (map (map_get ranked) msgs) ++ map_get ranked (nth j msgs "") :: repeat 0 (5 - S j))
      with (firstn (S j) (map (map_get ranked) msgs) ++ repeat 0 (5 - S j)).
    + rewrite IH by lia. now replace (S j + m)%nat with (j + S m)%nat by lia.
    + rewrite (firstn_S_nth _ _ 0) by exact Hj'. rewrite <- app_assoc. simpl.
      rewrite (nth_indep _ 0 (map_get ranked "")) by exact Hj'. now rewrite map_nth.
Qed.

Lemma count_messages_addps (lms : list LogMessage) (acc : gomap) :
  fold_left (fun m lm => map_add m (message lm) 1) lms acc =
  fold_left addp (map (fun lm => (message lm, 1)) lms) acc.
Proof. revert acc; induction lms as [|a lms IH]; intros acc; simpl; [reflexivity|]. apply IH. Qed.

Lemma sumk_messages (m : string) (lms : list LogMessage) :
  sumk m (map (fun lm => (message lm, 1)) lms) = Z.of_nat (count_message m lms).
Proof.
  induction lms as [|a lms IH]; [reflexivity|]. unfold count_message in *.
  cbn [map sumk filter]. rewrite IH.
  destruct (String.eqb (message a) m); cbn [List.length]; lia.
Qed.

Lemma count_messages_get (lms : list LogMessage) (m : string) :
  map_get (count_messages lms) m = wrap64 (Z.of_nat (count_message m lms)).
Proof.
  unfold count_messages. rewrite count_messages_addps, map_get_addps by reflexivity.
  rewrite sumk_messages. reflexivity.
Qed.

Lemma count_messages_keys (lms : list LogMessage) (m : string) :
  In m (map_keys (count_messages lms)) <-> exists lm, In lm lms /\ message lm = m.
Proof.
  unfold count_messages. rewrite count_messages_addps, map_keys_addps, map_map. simpl.
  rewrite in_map_iff. split; [intros [(lm & H1 & H2)|[]]; eauto|intros (lm & H1 & H2); left; eauto].
Qed.

Lemma count_messages_nodup (lms : list LogMessage) : NoDup (map_keys (count_messages lms)).
Proof.
  unfold count_messages. rewrite count_messages_addps. apply map_keys_addps_nodup. constructor.
Qed.

(** X6: for every iteration order of its map, [getTopFiveLogMessages]
    returns five message slots and five frequency slots.  The first
    min(5, number of distinct messages) slots hold distinct messages of the
    records in descending order of their occurrence counts, each with its
    count, and no message left out occurs more often than one kept; the
    remaining slots hold "" with frequency 0. *)
Theorem getTopFiveLogMessages_slots (ord : list string) (lms : list LogMessage) :
  iteration_order (count_messages lms) ord ->
  let ranked := count_messages lms in
  let out := firstn 5 (sort_stable (by_count ranked) ord) in
  getTopFiveLogMessages ord lms =
    (out ++ repeat "" (5 - List.length out),
     map (map_get ranked) out ++ repeat 0 (5 - List.length out)) /\
  (forall m, map_get ranked m = wrap64 (Z.of_nat (count_message m lms))) /\
  List.length out = Nat.min 5 (List.length (map_keys ranked)) /\ NoDup out /\
  (forall m, In m out -> exists lm, In lm lms /\ message lm = m) /\
  Sorted (count_desc (map_get ranked)) out /\
  (forall a lm, In a out -> In lm lms -> ~ In (message lm) out ->
     map_get ranked (message lm) <= map_get ranked a).
Proof.
  intros Hord ranked out.
  destruct (top_five_spec (map_get ranked) (map_keys ranked) ord
              (count_messages_nodup lms) Hord) as (T1 & T2 & T3 & T4 & T5).
  fold (by_count ranked) in T1, T2, T3, T4, T5. fold out in T1, T2, T3, T4, T5.
  split; [|split; [apply count_messages_get|split; [exact T1|split; [exact T2|split]]]].
  - unfold getTopFiveLogMessages. cbv zeta. fold ranked.
    set (msgs := sort_stable (by_count ranked) ord) in *.
    assert (Ho : out = firstn 5 msgs) by reflexivity. clearbody out.
    assert (Hl : List.length out = Nat.min 5 (List.length msgs))
      by (rewrite Ho; apply length_firstn).
    destruct msgs as [|m0 ms] eqn:Em.
    + rewrite Ho. reflexivity.
    + rewrite <- Em in *.
      replace (repeat "" 5, repeat 0 5) with
        (firstn 0 msgs ++ repeat "" (5 - 0), firstn 0 (map (map_get ranked) msgs) ++ repeat 0 (5 - 0))
        by reflexivity.
      rewrite topfive_loop by lia. rewrite Nat.add_0_l.
      rewrite firstn_map, firstn_min_length, <- Hl, <- Ho. reflexivity.
  - intros m Hm. apply count_messages_keys. exact (T3 m Hm).
  - split; [exact T4|].
    intros a lm Ha Hlm Hn. apply T5; [exact Ha| |exact Hn].
    apply count_messages_keys. eauto.
Qed.

Lemma getTopFiveLogMessages_slots_witness :
  let lms := [mkLogMessage "t" "INFO" "m" "f" 1 "a"; mkLogMessage "t" "INFO" "m" "f" 2 "b";
              mkLogMessage "t" "INFO" "m" "f" 3 "a"; mkLogMessage "t" "INFO" "m" "f" 4 "c"] in
  let ord := ["c"; "b"; "a"] in
  iteration_order (count_messages lms) ord /\
  getTopFiveLogMessages ord lms = (["a"; "c"; "b"; ""; ""], [2; 1; 1; 0; 0]).
Proof.
  intros lms ord.
  assert (Hord : iteration_order (count_messages lms) ord).
  { unfold iteration_order. vm_compute. apply (Permutation_rev ["a"; "b"; "c"]). }
  split; [exact Hord|].
  destruct (getTopFiveLogMessages_slots ord lms Hord) as (H & _).
  rewrite H. vm_compute. reflexivity.
Defined.

(* ------------------------------------------------------------------ *)
(** ** The totals of the reducer and of the whole run *)

Lemma sum_Z_perm (l1 l2 : list Z) : Permutation l1 l2 -> sum_Z l1 = sum_Z l2.
Proof. induction 1; simpl in *; lia. Qed.

Lemma wrap64_add_r (x y : Z) : wrap64 (x + wrap64 y) = wrap64 (x + y).
Proof. rewrite Z.add_comm, wrap64_add_l. f_equal. ring. Qed.

Lemma fold_add64_sum (l : list Z) (a : Z) :
  wrap64 a = a -> fold_left add64 l a = wrap64 (a + sum_Z l).
Proof.
  revert a; induction l as [|x l IH]; intros a Ha; simpl.
  - rewrite Z.add_0_r. symmetry; exact Ha.
  - rewrite IH by (unfold add64; apply wrap64_idem). unfold add64.
    rewrite wrap64_add_l. f_equal. ring.
Qed.

Lemma wrap64_sum_wrap {A} (f : A -> Z) (l : list A) :
  wrap64 (sum_Z (map (fun x => wrap64 (f x)) l)) = wrap64 (sum_Z (map f l)).
Proof.
  induction l as [|x l IH]; simpl; [reflexivity|].
  rewrite wrap64_add_l, <- wrap64_add_r, IH, wrap64_add_r. reflexivity.
Qed.

Lemma map_nth_seq_all {A} (l : list A) (d : A) :
  map (fun i => nth i l d) (seq 0 (List.length l)) = l.
Proof.
  induction l as [|a r IH]; [reflexivity|]. simpl.
  rewrite <- seq_shift, map_map. f_equal. exact IH.
Qed.

Lemma reduce_totals (ord : list string) (las : list LogAnalysis) (g : LogAnalysis) :
  analyzelogAnalyses ord las = Ok g ->
  numEntries g = wrap64 (sum_Z (map numEntries las)) /\
  debug (logSeverityFrequency g) = wrap64 (sum_Z (map (fun la => debug (logSeverityFrequency la)) las)) /\
  info (logSeverityFrequency g) = wrap64 (sum_Z (map (fun la => info (logSeverityFrequency la)) las)) /\
  warning (logSeverityFrequency g) = wrap64 (sum_Z (map (fun la => warning (logSeverityFrequency la)) las)) /\
  error (logSeverityFrequency g) = wrap64 (sum_Z (map (fun la => error (logSeverityFrequency la)) las)).
Proof.
  intros H. destruct las as [|la0 r]; [discriminate|].
  assert (Hne : la0 :: r <> []) by discriminate.
  destruct (forallb slots_wf (la0 :: r)) eqn:Hwf;
    [|rewrite (analyzelogAnalyses_unranked ord _ Hne Hwf) in H; discriminate].
  rewrite (analyzelogAnalyses_spec ord la0 r Hwf) in H. apply ok_inj in H. subst g.
  rewrite fold_reduce_step. cbn [numEntries logSeverityFrequency debug info warning error zeroSeverity].
  rewrite !fold_add64_sum by reflexivity. rewrite !Z.add_0_l. auto.
Qed.

Lemma analyzeLogFile_ok_fields (file : option string) (ord : list string) (la : LogAnalysis) :
  analyzeLogFile file ord = Ok la ->
  numEntries la = getNumEntries (parseLogFile file) /\
  logSeverityFrequency la = getLogSeverityFrequency (parseLogFile file).
Proof.
  unfold analyzeLogFile.
  destruct (getTopFiveLogMessages ord (parseLogFile file)) as [tops freqs].
  destruct (getStartTime _); simpl; [|discriminate].
  destruct (getEndTime _); simpl; [|discriminate].
  intros H. apply ok_inj in H. subst la. auto.
Qed.

Lemma severity_counts (lms : list LogMessage) :
  getLogSeverityFrequency lms =
  mkLogSeverityFrequency (wrap64 (Z.of_nat (count_severity "DEBUG" lms)))
                         (wrap64 (Z.of_nat (count_severity "INFO" lms)))
                         (wrap64 (Z.of_nat (count_severity "WARNING" lms)))
                         (wrap64 (Z.of_nat (count_severity "ERROR" lms))).
Proof. unfold getLogSeverityFrequency. rewrite tally_fold by reflexivity. reflexivity. Qed.

Lemma collect_ok_inv (files : list (option string)) (ords : list (list string))
    (arr : list nat) (las : list LogAnalysis) :
  collect files ords arr = Ok las ->
  forallb (fun i => is_ok (task files ords i)) arr = true /\ las = map (delivered files ords) arr.
Proof.
  intros H. destruct (collect_spec files ords arr) as [C1 C2].
  destruct (forallb (fun i => is_ok (task files ords i)) arr) eqn:Hok.
  - rewrite (C1 eq_refl) in H. apply ok_inj in H. auto.
  - destruct (C2 eq_refl) as [m Hm]. congruence.
Qed.

Lemma sum_delivered (files : list (option string)) (ords : list (list string)) (arr : list nat)
    (h : LogAnalysis -> Z) (h' : option string -> Z) :
  arrival_order (List.length files) arr ->
  forallb (fun i => is_ok (task files ords i)) arr = true ->
  (forall file o la, analyzeLogFile file o = Ok la -> h la = h' file) ->
  sum_Z (map (fun i => h (delivered files ords i)) arr) = sum_Z (map h' files).
Proof.
  intros Harr Hok Hh.
  rewrite (map_ext_in _ (fun i => h' (nth i files None))).
  - rewrite (sum_Z_perm _ _ (Permutation_map _ Harr)).
    rewrite <- (map_map (fun i => nth i files None) h'), map_nth_seq_all. reflexivity.
  - intros i Hi. rewrite forallb_forall in Hok. specialize (Hok i Hi).
    unfold delivered. destruct (task files ords i) as [la|m] eqn:Et; [|discriminate].
    exact (Hh _ _ _ Et).
Qed.

(** X7: when the reducer returns a summary, its entry count and each of its
    four severity counts are the sums of the corresponding fields of all
    the summaries it was given, wrapped around to int64. *)
Theorem analyzelogAnalyses_sums (ord : list string) (las : list LogAnalysis) (g : LogAnalysis) :
  analyzelogAnalyses ord las = Ok g ->
  numEntries g = wrap64 (sum_Z (map numEntries las)) /\
  debug (logSeverityFrequency g) = wrap64 (sum_Z (map (fun la => debug (logSeverityFrequency la)) las)) /\
  info (logSeverityFrequency g) = wrap64 (sum_Z (map (fun la => info (logSeverityFrequency la)) las)) /\
  warning (logSeverityFrequency g) = wrap64 (sum_Z (map (fun la => warning (logSeverityFrequency la)) las)) /\
  error (logSeverityFrequency g) = wrap64 (sum_Z (map (fun la => error (logSeverityFrequency la)) las)).
Proof. apply reduce_totals. Qed.

Lemma analyzelogAnalyses_sums_witness :
  let las := [mkLogAnalysis (2 ^ 63 - 1) (mkLogSeverityFrequency 0 3 0 1)
                ["a"; ""; ""; ""; ""] [1; 0; 0; 0; 0] 50 70;
              mkLogAnalysis 1 (mkLogSeverityFrequency 0 0 1 1)
                ["b"; ""; ""; ""; ""] [1; 0; 0; 0; 0] 10 60] in
  exists g, analyzelogAnalyses ["a"; "b"; ""] las = Ok g /\
    numEntries g = - 2 ^ 63 /\ info (logSeverityFrequency g) = 3 /\
    error (logSeverityFrequency g) = 2.
Proof.
  intros las.
  remember (analyzelogAnalyses ["a"; "b"; ""] las) as o eqn:E.
  destruct o as [g|m]; [|vm_compute in E; discriminate].
  exists g. split; [reflexivity|].
  destruct (analyzelogAnalyses_sums ["a"; "b"; ""] las g (eq_sym E)) as (H1 & _ & H3 & _ & H5).
  rewrite H1, H3, H5. vm_compute. auto.
Defined.

(** X8: when a run of [analyzeLogFiles] returns a summary, its entry count
    is the total number of accepted lines over all the files, and each
    severity count the number of accepted lines of that severity over all
    the files (unreadable files counting zero), wrapped around to int64,
    whatever the arrival order. *)
Theorem analyzeLogFiles_totals (files : list (option string)) (ords : list (list string))
    (arr : list nat) (gord : list string) (g : LogAnalysis) :
  arrival_order (List.length files) arr ->
  analyzeLogFiles files ords arr gord = Ok g ->
  numEntries g = wrap64 (sum_Z (map (fun f => Z.of_nat (List.length (parseLogFile f))) files)) /\
  debug (logSeverityFrequency g) =
    wrap64 (sum_Z (map (fun f => Z.of_nat (count_severity "DEBUG" (parseLogFile f))) files)) /\
  info (logSeverityFrequency g) =
    wrap64 (sum_Z (map (fun f => Z.of_nat (count_severity "INFO" (parseLogFile f))) files)) /\
  warning (logSeverityFrequency g) =
    wrap64 (sum_Z (map (fun f => Z.of_nat (count_severity "WARNING" (parseLogFile f))) files)) /\
  error (logSeverityFrequency g) =
    wrap64 (sum_Z (map (fun f => Z.of_nat (count_severity "ERROR" (parseLogFile f))) files)).
Proof.
  intros Harr H. unfold analyzeLogFiles in H.
  destruct (collect files ords arr) as [las|m] eqn:Ec; [|discriminate]. cbn [obind] in H.
  destruct (collect_ok_inv _ _ _ _ Ec) as [Hok ->].
  destruct (reduce_totals _ _ _ H) as (E1 & E2 & E3 & E4 & E5).
  rewrite E1, E2, E3, E4, E5. rewrite !map_map.
  split; [|split; [|split; [|split]]].
  - f_equal. apply (sum_delivered _ _ _ _ _ Harr Hok).
    intros file o la Hla. apply (analyzeLogFile_ok_fields _ _ _ Hla).
  - rewrite (sum_delivered _ _ _ (fun la => debug (logSeverityFrequency la))
               (fun f => wrap64 (Z.of_nat (count_severity "DEBUG" (parseLogFile f)))) Harr Hok).
    + apply wrap64_sum_wrap.
    + intros file o la Hla. rewrite (proj2 (analyzeLogFile_ok_fields _ _ _ Hla)), severity_counts. reflexivity.
  - rewrite (sum_delivered _ _ _ (fun la => info (logSeverityFrequency la))
               (fun f => wrap64 (Z.of_nat (count_severity "INFO" (parseLogFile f)))) Harr Hok).
    + apply wrap64_sum_wrap.
    + intros file o la Hla. rewrite (proj2 (analyzeLogFile_ok_fields _ _ _ Hla)), severity_counts. reflexivity.
  - rewrite (sum_delivered _ _ _ (fun la => warning (logSeverityFrequency la))
               (fun f => wrap64 (Z.of_nat (count_severity "WARNING" (parseLogFile f)))) Harr Hok).
    + apply wrap64_sum_wrap.
    + intros file o la Hla. rewrite (proj2 (analyzeLogFile_ok_fields _ _ _ Hla)), severity_counts. reflexivity.
  - rewrite (sum_delivered _ _ _ (fun la => error (logSeverityFrequency la))
               (fun f => wrap64 (Z.of_nat (count_severity "ERROR" (parseLogFile f)))) Harr Hok).
    + apply wrap64_sum_wrap.
    + intros file o la Hla. rewrite (proj2 (analyzeLogFile_ok_fields _ _ _ Hla)), severity_counts. reflexivity.
Qed.

Lemma analyzeLogFiles_totals_witness :
  let files := [Some log1Content; None; Some "not a log line"] in
  let ords := [["User logged in"; "Database error"]; []; []] in
  exists g, arrival_order 3 [2; 0; 1]%nat /\
    analyzeLogFiles files ords [2; 0; 1]%nat ["User logged in"; "Database error"; ""] = Ok g /\
    numEntries g = 2 /\ error (logSeverityFrequency g) = 1.
Proof.
  intros files ords.
  assert (Harr : arrival_order 3 [2; 0; 1]%nat).
  { unfold arrival_order. simpl. apply (Permutation_cons_append [0; 1]%nat 2%nat). }
  remember (analyzeLogFiles files ords [2; 0; 1]%nat ["User logged in"; "Database error"; ""]) as o eqn:E.
  destruct o as [g|m]; [|vm_compute in E; discriminate].
  exists g. split; [exact Harr|]. split; [reflexivity|].
  destruct (analyzeLogFiles_totals files ords [2; 0; 1]%nat _ g Harr (eq_sym E))
    as (H1 & _ & _ & _ & H5).
  rewrite H1, H5. vm_compute. auto.
Defined.

(* ------------------------------------------------------------------ *)
(** ** When a run, and the reducer, return a summary *)

Lemma arrival_in (n : nat) (arr : list nat) (i : nat) :
  arrival_order n arr -> In i arr <-> (i < n)%nat.
Proof.
  intros Harr. split.
  - intros Hi. apply (Permutation_in _ Harr), in_seq in Hi. lia.
  - intros Hi. apply (Permutation_in _ (Permutation_sym Harr)), in_seq. lia.
Qed.

(** X9: for every arrival order of the goroutines' results, a run of
    [analyzeLogFiles] returns a summary exactly when it is given at least
    one path and the goroutine of every path returns its summary; with no
    path it panics with "No analysis found". *)
Theorem analyzeLogFiles_ok_iff (files : list (option string)) (ords : list (list string))
    (arr : list nat) (gord : list string) :
  arrival_order (List.length files) arr ->
  ((exists g, analyzeLogFiles files ords arr gord = Ok g) <->
   files <> [] /\ forall i, (i < List.length files)%nat -> is_ok (task files ords i) = true) /\
  (files = [] -> analyzeLogFiles files ords arr gord = Panic "No analysis found").
Proof.
  intros Harr. split.
  - split.
    + intros [g H]. unfold analyzeLogFiles in H.
      destruct (collect files ords arr) as [las|m] eqn:Ec; [|discriminate]. cbn [obind] in H.
      destruct (collect_ok_inv _ _ _ _ Ec) as [Hok ->]. split.
      * intros ->. unfold arrival_order in Harr. simpl in Harr. apply Permutation_sym, Permutation_nil in Harr. subst arr. discriminate.
      * intros i Hi. rewrite forallb_forall in Hok. apply Hok. apply (arrival_in _ _ _ Harr). exact Hi.
    + intros [Hne Hall].
      assert (Hok : forallb (fun i => is_ok (task files ords i)) arr = true).
      { apply forallb_forall. intros i Hi. apply Hall. apply (arrival_in _ _ _ Harr). exact Hi. }
      unfold analyzeLogFiles. rewrite (proj1 (collect_spec files ords arr) Hok). cbn [obind].
      destruct arr as [|i0 r] eqn:Ea.
      * unfold arrival_order in Harr. destruct files; [congruence|].
        simpl in Harr. apply Permutation_nil in Harr. discriminate.
      * assert (Hwf : forallb slots_wf (map (delivered files ords) (i0 :: r)) = true).
        { apply forallb_forall. intros la Hla. apply in_map_iff in Hla as (i & <- & Hi).
          rewrite forallb_forall in Hok. specialize (Hok i Hi). unfold delivered.
          destruct (task files ords i) as [la|m] eqn:Et; [|discriminate].
          exact (analyzeLogFile_slots_wf _ _ _ Et). }
        cbn [map] in Hwf |- *. rewrite (analyzelogAnalyses_spec gord _ _ Hwf). eexists; reflexivity.
  - intros ->. unfold arrival_order in Harr. simpl in Harr. apply Permutation_sym, Permutation_nil in Harr. subst arr. reflexivity.
Qed.

Lemma analyzeLogFiles_ok_iff_witness :
  arrival_order 1 [0]%nat /\
  (exists g, analyzeLogFiles [Some log1Content] [["User logged in"; "Database error"]] [0]%nat
               ["User logged in"; "Database error"] = Ok g) /\
  ~ (exists g, analyzeLogFiles [Some "yesterday | INFO | app: main: 1 - boot"; Some log1Content]
      [["boot"]; ["User logged in"; "Database error"]] [1; 0]%nat ["boot"] = Ok g) /\
  analyzeLogFiles [] [] [] [] = Panic "No analysis found".
Proof.
  assert (H1 : arrival_order 1 [0]%nat) by (unfold arrival_order; apply Permutation_refl).
  assert (H2 : arrival_order 2 [1; 0]%nat) by (unfold arrival_order; apply perm_swap).
  assert (H0 : arrival_order 0 []) by (unfold arrival_order; apply Permutation_refl).
  split; [exact H1|]. split; [|split].
  - apply (proj1 (analyzeLogFiles_ok_iff [Some log1Content] _ _ _ H1)). split; [discriminate|].
    intros i Hi. simpl in Hi. destruct i as [|i]; [vm_compute; reflexivity|lia].
  - intros Hex.
    apply (proj1 (analyzeLogFiles_ok_iff [Some "yesterday | INFO | app: main: 1 - boot"; Some log1Content]
                    _ _ _ H2)) in Hex as [_ Hall].
    specialize (Hall 0%nat). vm_compute in Hall. discriminate (Hall (le_n_S _ _ (le_0_n _))).
  - exact (proj2 (analyzeLogFiles_ok_iff [] [] [] [] H0) eq_refl).
Defined.

Lemma forallb_false_ex {A} (f : A -> bool) (l : list A) :
  forallb f l = false -> exists x, In x l /\ f x = false.
Proof.
  induction l as [|a l IH]; simpl; [discriminate|]. intros H.
  destruct (f a) eqn:Ea; simpl in H; [destruct (IH H) as (x & ? & ?); eauto|eauto].
Qed.

(** X10: on a non-empty list of summaries the reducer panics with an index
    out of range exactly when some summary has fewer frequencies than the
    min(5, number of its messages) slots it reads, and otherwise returns a
    summary. *)
Theorem analyzelogAnalyses_index_panic (ord : list string) (las : list LogAnalysis) :
  las <> [] ->
  (analyzelogAnalyses ord las = Panic "index out of range" <->
   exists la, In la las /\
     (List.length (topFiveLogMessageFrequencies la) < Nat.min 5 (List.length (topFiveLogMessages la)))%nat) /\
  ((forall la, In la las ->
     (Nat.min 5 (List.length (topFiveLogMessages la)) <= List.length (topFiveLogMessageFrequencies la))%nat) ->
   exists g, analyzelogAnalyses ord las = Ok g).
Proof.
  intros Hne.
  assert (Hw : forallb slots_wf las = true <->
               forall la, In la las ->
                 (Nat.min 5 (List.length (topFiveLogMessages la)) <= List.length (topFiveLogMessageFrequencies la))%nat).
  { rewrite forallb_forall. unfold slots_wf, slot_count.
    split; intros H la Hla; specialize (H la Hla); [apply Nat.leb_le in H; exact H|apply Nat.leb_le; exact H]. }
  destruct las as [|la0 r]; [congruence|].
  split; [split|].
  - intros Hp. destruct (forallb slots_wf (la0 :: r)) eqn:Hwf.
    + rewrite (analyzelogAnalyses_spec ord la0 r Hwf) in Hp. discriminate.
    + apply forallb_false_ex in Hwf as (la & Hla & Hf).
      exists la. split; [exact Hla|]. unfold slots_wf, slot_count in Hf.
      apply Nat.leb_gt in Hf. exact Hf.
  - intros (la & Hla & Hlt). apply analyzelogAnalyses_unranked; [exact Hne|].
    apply Bool.not_true_iff_false. rewrite Hw. intros H. specialize (H la Hla). lia.
  - intros H. apply Hw in H. rewrite (analyzelogAnalyses_spec ord la0 r H). eexists; reflexivity.
Qed.

Lemma analyzelogAnalyses_index_panic_witness :
  let las := [mkLogAnalysis 1 zeroSeverity ["a"; ""; ""; ""; ""] [1; 0; 0; 0; 0] 0 0;
              mkLogAnalysis 1 zeroSeverity ["b"; "c"] [1] 0 0] in
  las <> [] /\ analyzelogAnalyses ["a"; "b"; "c"; ""] las = Panic "index out of range".
Proof.
  intros las. assert (Hne : las <> []) by discriminate. split; [exact Hne|].
  apply (proj2 (proj1 (analyzelogAnalyses_index_panic ["a"; "b"; "c"; ""] las Hne))).
  exists (mkLogAnalysis 1 zeroSeverity ["b"; "c"] [1] 0 0). split; [right; left; reflexivity|].
  simpl. lia.
Defined.

(* ------------------------------------------------------------------ *)
(** ** Lines assembled from delimiter-free pieces *)

Lemma split_char_none (c : ascii) (s : string) :
  contains_char c s = false -> split_char c s = [s].
Proof.
  induction s as [|a s IH]; simpl; [reflexivity|]. intros H.
  apply orb_false_iff in H as [Ha Hs]. rewrite Ha, (IH Hs). reflexivity.
Qed.

Lemma split_app_sep (c : ascii) (a b : string) :
  contains_char c a = false -> split_char c (a ++ String c b) = a :: split_char c b.
Proof.
  induction a as [|x a IH]; simpl; intros H.
  - rewrite Ascii.eqb_refl. reflexivity.
  - apply orb_false_iff in H as [Hx Ha]. rewrite Hx, (IH Ha). reflexivity.
Qed.

(** X11: a line assembled as [ts|sev|md:fn:ln-msg] from pieces in which
    the delimiters the parser splits at do not occur (no '|' anywhere, no
    ':' after the severity, no '-' after the function) is parsed into the
    trimmed pieces; it is rejected only with "Malformed message" when the
    trimmed severity is empty, or with the [strconv] error when the trimmed
    line-number text is not a 16-bit integer. *)
Theorem parseLogMessage_log_row (ts sev md fn ln msg : string) :
  contains_char "|" (ts ++ sev ++ md ++ fn ++ ln ++ msg) = false ->
  contains_char ":" (md ++ fn ++ ln ++ msg) = false ->
  contains_char "-" (ln ++ msg) = false ->
  parseLogMessage (log_row ts sev md fn ln msg) =
  if String.eqb (TrimSpace sev) "" then
    (mkLogMessage (TrimSpace ts) (TrimSpace sev) "" "" 0 "", Some (ErrorsNew "Malformed message"))
  else
    let '(n, err) := ParseInt (TrimSpace ln) 0 16 in
    (mkLogMessage (TrimSpace ts) (TrimSpace sev) (TrimSpace md) (TrimSpace fn) n (TrimSpace msg),
     option_map NumError err).
Proof.
  intros H1 H2 H3. rewrite !contains_app in H1. rewrite !contains_app in H2.
  rewrite !contains_app in H3.
  repeat rewrite orb_false_iff in H1. repeat rewrite orb_false_iff in H2.
  repeat rewrite orb_false_iff in H3.
  destruct H1 as (Pts & Psev & Pmd & Pfn & Pln & Pmsg).
  destruct H2 as (Cmd & Cfn & Cln & Cmsg). destruct H3 as (Dln & Dmsg).
  unfold parseLogMessage, log_row.
  rewrite (split_app_sep _ ts) by exact Pts. rewrite (split_app_sep _ sev) by exact Psev.
  rewrite split_char_none
    by (repeat first [rewrite contains_app | progress simpl]; rewrite Pmd, Pfn, Pln, Pmsg; reflexivity).
  cbn [List.length nth negb Nat.eqb].
  destruct (String.eqb (TrimSpace sev) ""); [reflexivity|].
  rewrite (split_app_sep _ md) by exact Cmd. rewrite (split_app_sep _ fn) by exact Cfn.
  rewrite split_char_none
    by (repeat first [rewrite contains_app | progress simpl]; rewrite Cln, Cmsg; reflexivity).
  cbn [List.length nth Nat.ltb Nat.leb].
  rewrite (split_app_sep _ ln) by exact Dln. rewrite (split_char_none _ msg) by exact Dmsg.
  cbn [List.length nth Nat.ltb Nat.leb].
  destruct (ParseInt (TrimSpace ln) 0 16) as [n [e|]]; reflexivity.
Qed.

Lemma parseLogMessage_log_row_witness :
  let ts := "2024-01-01 00:00:00.000 " in let sev := " INFO " in
  let md := " app.module" in let fn := " function" in
  let ln := " 123 " in let msg := " User logged in" in
  contains_char "|" (ts ++ sev ++ md ++ fn ++ ln ++ msg) = false /\
  contains_char ":" (md ++ fn ++ ln ++ msg) = false /\
  contains_char "-" (ln ++ msg) = false /\
  parseLogMessage (log_row ts sev md fn ln msg) =
    (mkLogMessage "2024-01-01 00:00:00.000" "INFO" "app.module" "function" 123 "User logged in", None).
Proof.
  intros ts sev md fn ln msg.
  assert (H1 : contains_char "|" (ts ++ sev ++ md ++ fn ++ ln ++ msg) = false) by reflexivity.
  assert (H2 : contains_char ":" (md ++ fn ++ ln ++ msg) = false) by reflexivity.
  assert (H3 : contains_char "-" (ln ++ msg) = false) by reflexivity.
  split; [exact H1|]. split; [exact H2|]. split; [exact H3|].
  rewrite (parseLogMessage_log_row ts sev md fn ln msg H1 H2 H3). vm_compute. reflexivity.
Defined.

(* ------------------------------------------------------------------ *)
(** ** The period of a per-file summary *)


